(** * Crimson policy generator: sanitizer, renderer, endpoint and technology mapper

    A shallow embedding of [app.py] (the [/generate_policy] endpoint with its
    completion loop, content clean-up and Word rendering loop) and of
    [itglue_integration.py] ([_map_technology_stack]), with the properties of
    the specification stated and settled on the embedding.

    Python [str] values are sequences of Unicode code points: [len], slicing,
    [strip] and [startswith] all count code points, so a string is modelled as
    a list of code points and the literals of the source are decoded from
    UTF-8. *)

From Stdlib Require Import NArith ZArith DecimalString Ascii String List Lia.
From stdpp Require Import gmap strings list.
Import ListNotations.

Local Open Scope N_scope.

(** ** Python strings *)

Module Py.

Abbreviation codepoint := N (only parsing).
Abbreviation pystr := (list N) (only parsing).

(** Decoding of a UTF-8 byte sequence; it is only ever applied to the string
    literals of the source files, which are well-formed. *)
Fixpoint utf8_decode (bs : list N) : pystr :=
  match bs with
  | [] => []
  | b0 :: t0 =>
    if b0 <? 128 then b0 :: utf8_decode t0
    else match t0 with
    | [] => [b0]
    | b1 :: t1 =>
      if b0 <? 224 then ((b0 - 192) * 64 + (b1 - 128)) :: utf8_decode t1
      else match t1 with
      | [] => [b0; b1]
      | b2 :: t2 =>
        if b0 <? 240
        then ((b0 - 224) * 4096 + (b1 - 128) * 64 + (b2 - 128)) :: utf8_decode t2
        else match t2 with
        | [] => [b0; b1; b2]
        | b3 :: t3 =>
          ((b0 - 240) * 262144 + (b1 - 128) * 4096 + (b2 - 128) * 64 + (b3 - 128))
            :: utf8_decode t3
        end
      end
    end
  end.

(** A literal of the source. *)
Definition str (s : string) : pystr :=
  utf8_decode (map N_of_ascii (list_ascii_of_string s)).

(** [c.isspace()] for one character (CPython's whitespace table). *)
Definition isspace (c : codepoint) : bool :=
  ((9 <=? c) && (c <=? 13)) || ((28 <=? c) && (c <=? 32))
  || (c =? 133) || (c =? 160) || (c =? 5760)
  || ((8192 <=? c) && (c <=? 8202))
  || (c =? 8232) || (c =? 8233) || (c =? 8239) || (c =? 8287) || (c =? 12288).

(** [s.lstrip(chars)] and [s.rstrip(chars)], the set of characters given as a
    predicate. *)
Fixpoint lstrip_by (f : codepoint -> bool) (s : pystr) : pystr :=
  match s with
  | [] => []
  | c :: s' => if f c then lstrip_by f s' else s
  end.

Fixpoint rstrip_by (f : codepoint -> bool) (s : pystr) : pystr :=
  match s with
  | [] => []
  | c :: s' =>
    match rstrip_by f s' with
    | [] => if f c then [] else [c]
    | r => c :: r
    end
  end.

(** [s.strip()]: whitespace removed at both ends. *)
Definition strip (s : pystr) : pystr := lstrip_by isspace (rstrip_by isspace s).

(** [s.rstrip(chars)]. *)
Definition rstrip (s chars : pystr) : pystr :=
  rstrip_by (fun c => existsb (N.eqb c) chars) s.

(** [s == t]. *)
Fixpoint eqb (s t : pystr) : bool :=
  match s, t with
  | [], [] => true
  | a :: s', b :: t' => (a =? b) && eqb s' t'
  | _, _ => false
  end.

(** [s.startswith(p)]. *)
Fixpoint startswith (s p : pystr) {struct p} : bool :=
  match p, s with
  | [], _ => true
  | a :: p', b :: s' => (a =? b) && startswith s' p'
  | _ :: _, [] => false
  end.

(** [s.endswith(p)]. *)
Definition endswith (s p : pystr) : bool :=
  (length p <=? length s)%nat && eqb (drop (length s - length p) s) p.

(** [sub in s]. *)
Fixpoint contains (sub s : pystr) : bool :=
  startswith s sub
  || match s with
     | [] => false
     | _ :: s' => contains sub s'
     end.

(** [s.replace(old, new)]: the occurrences of [old] are found from left to
    right and do not overlap; [skip] counts the characters of an occurrence
    still to be passed over. An empty [old] matches between all characters. *)
Fixpoint replace_from (skip : nat) (s old new : pystr) : pystr :=
  match s with
  | [] => []
  | c :: s' =>
    match skip with
    | S k => replace_from k s' old new
    | O =>
      if startswith s old
      then new ++ replace_from (length old - 1) s' old new
      else c :: replace_from 0 s' old new
    end
  end.

Definition replace (s old new : pystr) : pystr :=
  match old with
  | [] => new ++ flat_map (fun c => c :: new) s
  | _ :: _ => replace_from 0 s old new
  end.

(** [s.split(sep)] for a separator of one character, the only form the source
    uses ([split('\n')]). *)
Fixpoint split (s : pystr) (sep : codepoint) : list pystr :=
  match s with
  | [] => [[]]
  | c :: s' =>
    if c =? sep then [] :: split s' sep
    else match split s' sep with
         | l :: ls => (c :: l) :: ls
         | [] => [[c]]
         end
  end.

(** [sep.join(parts)]. *)
Fixpoint join (sep : pystr) (parts : list pystr) : pystr :=
  match parts with
  | [] => []
  | [p] => p
  | p :: rest => p ++ sep ++ join sep rest
  end.

(** [x in xs] for a list of strings. *)
Definition mem (x : pystr) (xs : list pystr) : bool := existsb (eqb x) xs.

(** Truth value of a string: non-empty. *)
Definition truthy (s : pystr) : bool :=
  match s with [] => false | _ :: _ => true end.

(** The line feed, [ord('\n')]. *)
Definition LF : codepoint := 10.

(** The Unicode case tables behind [str.lower], [str.upper], [str.isupper]
    and [str.isalnum] are data of the interpreter, not of the program; they
    are taken as an interface. *)
Class CaseTables := {
  lower : pystr -> pystr;
  upper : pystr -> pystr;
  isupper : pystr -> bool;
  isalnum : codepoint -> bool
}.

(** The tables restricted to Basic Latin, where they are: letters [A-Z] and
    [a-z] swap by 32, a string is upper-case when it has a cased letter and no
    lower-case one. Python agrees with them on every ASCII string. *)
Definition is_AZ (c : codepoint) : bool := (65 <=? c) && (c <=? 90).
Definition is_az (c : codepoint) : bool := (97 <=? c) && (c <=? 122).
Definition is_09 (c : codepoint) : bool := (48 <=? c) && (c <=? 57).

#[export] Instance basic_latin : CaseTables := {|
  lower := map (fun c => if is_AZ c then c + 32 else c);
  upper := map (fun c => if is_az c then c - 32 else c);
  isupper := fun s => existsb is_AZ s && negb (existsb is_az s);
  isalnum := fun c => is_AZ c || is_az c || is_09 c
|}.

(** [ord(c)] for a literal of one character. *)
Definition ord (s : string) : codepoint := hd 0 (str s).

(** [s.count(c)] for one character. *)
Definition count (c : codepoint) (s : pystr) : nat :=
  length (List.filter (N.eqb c) s).

(** A string that does not begin, or end, with a character of the given
    set. *)
Definition starts_ok (f : codepoint -> bool) (s : pystr) : bool :=
  match s with [] => true | c :: _ => negb (f c) end.

Definition ends_ok (f : codepoint -> bool) (s : pystr) : bool :=
  match last s with None => true | Some c => negb (f c) end.

(** Two strings that differ at a position both have. *)
Fixpoint clash (p q : pystr) : bool :=
  match p, q with
  | a :: p', b :: q' => negb (a =? b) || clash p' q'
  | _, _ => false
  end.

(** In a list of prefixes, no entry is the beginning of another. *)
Fixpoint prefix_free (ps : list pystr) : bool :=
  match ps with
  | [] => true
  | p :: rest => forallb (clash p) rest && prefix_free rest
  end.

(** The bold marker of the model output, two asterisks. *)
Definition star2 : pystr := [42; 42].

End Py.
Import Py.

Local Open Scope string_scope.
Local Open Scope list_scope.

(** ** Exceptions and effects

    A computation either returns or raises an [Exception] (carried as its
    [str(e)]), and appends to the log of the outward actions of the request:
    the process-wide client configuration, the calls to the chat-completion
    service, the temporary file. *)

Inductive event :=
| EvConfigure (api_key api_base : pystr)
| EvChatCompletion (engine : pystr)
| EvSaveTempFile.

Definition M (A : Type) : Type := list event -> (pystr + A) * list event.

Definition ret {A} (a : A) : M A := fun log => (inr a, log).
Definition raise {A} (msg : pystr) : M A := fun log => (inl msg, log).
Definition emit (e : event) : M unit := fun log => (inr tt, log ++ [e]).
Definition bind {A B} (m : M A) (k : A -> M B) : M B :=
  fun log =>
    match m log with
    | (inl e, log') => (inl e, log')
    | (inr a, log') => k a log'
    end.

Notation "x <- m ;; k" := (bind m (fun x => k))
  (at level 100, m at next level, right associativity).
Notation "m ;;; k" := (bind m (fun _ => k))
  (at level 100, right associativity).

(** [try: m except Exception as e: return h(e)]. *)
Definition try_except {A} (m : M A) (h : pystr -> A) : list event -> A * list event :=
  fun log =>
    match m log with
    | (inr a, log') => (a, log')
    | (inl e, log') => (h e, log')
    end.

(** [d[k]], a [KeyError] when the key is absent ([str(KeyError(k))] is the
    [repr] of the key). *)
Definition getitem (d : gmap string pystr) (k : string) : M pystr :=
  match d !! k with
  | Some v => ret v
  | None => raise (str "'" ++ str k ++ str "'")
  end.

(** The process environment read by [os.getenv]. *)
Record Env := {
  AZURE_OPENAI_API_KEY : option pystr;
  AZURE_OPENAI_ENDPOINT : option pystr
}.

(** What one [openai.ChatCompletion.create] call does: it raises, or returns
    a response, of which the program reads [choices[i].message.content]
    (a string, or [None]). *)
Inductive outcome :=
| Raises (msg : pystr)
| Returns (choices : list (option pystr)).

(** The service is not part of the program: its answer to a call may depend
    on all that happened before, on the engine and on the prompt. *)
Definition Service := list event -> pystr -> pystr -> outcome.

Module App.

Definition configure_openai (env : Env) : M unit :=
  let api_key := AZURE_OPENAI_API_KEY env in
  let endpoint := AZURE_OPENAI_ENDPOINT env in
  match api_key, endpoint with
  | Some k, Some e =>
    if negb (truthy k) || negb (truthy e)
    then raise (str "Azure OpenAI credentials not configured")
    else emit (EvConfigure k e)
  | _, _ => raise (str "Azure OpenAI credentials not configured")
  end.

Definition dq : pystr := [34].

(** The f-string of [generate_policy_content]. *)
Definition build_prompt (form_data : gmap string pystr) : M pystr :=
  policy_type <- getitem form_data "policy_type" ;;
  client_name <- getitem form_data "client_name" ;;
  industry <- getitem form_data "industry" ;;
  company_size <- getitem form_data "company_size" ;;
  tech_stack <- getitem form_data "tech_stack" ;;
  compliance_requirements <- getitem form_data "compliance_requirements" ;;
  additional_requirements <- getitem form_data "additional_requirements" ;;
  ret (str "You are a cybersecurity policy generator trained to write business-grade IT and security policies aligned with industry frameworks such as NIST 800-53 Rev. 5, SOC 2, SEC Cyber Risk Guidance, and CIS Controls. Your policies must follow this format:
- A clear section heading for each topic
- A short introductory paragraph explaining the purpose or intent of that section
- A mix of both: lists of actionable bullet points or paragraphs that reflect standards and expected behaviors

The language should be professional, clear, and non-technical. Avoid legal jargon or redundant statements.

IMPORTANT FORMATTING REQUIREMENTS:
- Do NOT include any conversational responses like " ++ dq ++ str "Certainly" ++ dq ++ str ", " ++ dq ++ str "Here is" ++ dq ++ str ", etc.
- Use ONLY H1 and H2 headings, no bold text (**text**)  
- Do NOT use em dashes (—), use regular hyphens (-) instead
- Start directly with the policy content, no introductory text
- Use simple bullet points with hyphens (-) not special characters
- Keep formatting clean and professional

Generate a comprehensive " ++ policy_type ++ str " for the following organization:

Client: " ++ client_name ++ str "
Industry: " ++ industry ++ str "
Company Size: " ++ company_size ++ str "
Technology Stack: " ++ tech_stack ++ str "
Compliance Requirements: " ++ (if truthy compliance_requirements then compliance_requirements
                               else str "General best practices") ++ str "
Managed Service Provider (MSP): Crimson IT
Managed Security Service Provider (MSSP): Crimson IT
Additional Requirements: " ++ additional_requirements ++ str "

The policy should be specifically tailored to this organization's context and include:
1. Purpose and scope
2. Roles and responsibilities
3. Policy statements with specific controls
4. Implementation guidelines
5. Compliance and monitoring requirements
6. References to applicable frameworks

Make sure to reference Crimson IT as the designated MSP and MSSP throughout the policy where appropriate.").

Definition model_names : list pystr := [str "gpt-5-chat"; str "gpt-4o"].

(** One [openai.ChatCompletion.create(engine=..., messages=[...])]. *)
Definition ChatCompletion_create (create : Service) (engine prompt : pystr)
  : M (list (option pystr)) :=
  fun log =>
    match create log engine prompt with
    | Raises msg => (inl msg, log ++ [EvChatCompletion engine])
    | Returns choices => (inr choices, log ++ [EvChatCompletion engine])
    end.

(** [str(x)] inside an f-string for a value that is a string or [None]. *)
Definition fmt (x : option pystr) : pystr :=
  match x with Some s => s | None => str "None" end.

(** The [for model_name in model_names] loop: [break] on the first call that
    returns, otherwise [last_error] is overwritten and the next name is
    tried. It yields the final [response] and [last_error]. *)
Fixpoint try_models (create : Service) (prompt : pystr) (names : list pystr)
    (last_error : option pystr) : list event ->
    (option (list (option pystr)) * option pystr) * list event :=
  fun log =>
    match names with
    | [] => ((None, last_error), log)
    | model_name :: rest =>
      match ChatCompletion_create create model_name prompt log with
      | (inr response, log') => ((Some response, last_error), log')
      | (inl model_error, log') =>
        try_models create prompt rest
          (Some (str "Model " ++ model_name ++ str ": " ++ model_error)) log'
      end
    end.

(** The completion step: the loop, then the check of [response]. *)
Definition complete (create : Service) (prompt : pystr) (names : list pystr)
  : M (list (option pystr)) :=
  fun log =>
    match try_models create prompt names None log with
    | ((None, last_error), log') =>
      (inl (str "All models failed. Last error: " ++ fmt last_error), log')
    | ((Some response, _), log') => (inr response, log')
    end.

Definition prefixes_to_remove : list pystr := map str [
  "Certainly!"; "Certainly,"; "Certainly."; "Sure!"; "Sure,"; "Of course!"; "Of course,";
  "Here is"; "Here's"; "Below is"; "I'll"; "I can"; "Let me"; "I'd be happy to";
  "Here you go"; "Absolutely!"; "Absolutely,"; "No problem!"; "No problem,";
  "I have aligned"; "I have created"; "This policy"; "The following"
].

(** [for prefix in prefixes: if content.strip().startswith(prefix): ...; break]. *)
Fixpoint remove_prefix (prefixes : list pystr) (content : pystr) : pystr :=
  match prefixes with
  | [] => content
  | prefix :: rest =>
    if startswith (strip content) prefix
    then strip (drop (length prefix) (strip content))
    else remove_prefix rest content
  end.

Definition chatter_phrases : list pystr := map str [
  "if you'd like"; "would you like"; "let me know if"; "feel free to";
  "i can also"; "i'd be happy to"; "please let me know";
  "if you need"; "would you prefer"; "shall i"; "do you want";
  "comprehensive information security policy"; "tailored to the organization";
  "i have aligned"; "aligned it with"; "below is a"; "here is a"
].

Definition artifacts : list pystr := map str [
  "--"; "____________________________________________________________"; "•"; "◦"; "▪"
].

(** The characters that the clean-up turns into hyphens, and the replacement
    of one of them. *)
Definition glyphs : list codepoint := [8212; 8211; 8226; 9702; 9642].

Definition to_hyphen (a x : codepoint) : codepoint := if (x =? a)%N then 45%N else x.

Section Generation.
Context `{CaseTables}.

(** The [for line in lines] loop that fills [cleaned_lines]. *)
Fixpoint clean_lines (lines : list pystr) : list pystr :=
  match lines with
  | [] => []
  | line :: rest =>
    let line := strip line in
    if existsb (fun phrase => contains phrase (lower line)) chatter_phrases
    then clean_lines rest
    else if mem line artifacts then clean_lines rest
    else if startswith (lower line) (str "abilityfirst")
            && contains (str "information security policy") (lower line)
    then clean_lines rest
    else if truthy line then line :: clean_lines rest
    else clean_lines rest
  end.

(** The test of the line loop on a line already stripped: [true] when the
    line is appended to [cleaned_lines]. *)
Definition keeps (line : pystr) : bool :=
  negb (existsb (fun phrase => contains phrase (lower line)) chatter_phrases)
  && negb (mem line artifacts)
  && negb (startswith (lower line) (str "abilityfirst")
           && contains (str "information security policy") (lower line))
  && truthy line.

(** "Remove em dashes and replace with hyphens". *)
Definition replace_dashes (content : pystr) : pystr :=
  let content := replace content (str "—") (str "-") in
  let content := replace content (str "–") (str "-") in
  content.

(** "Remove bold formatting markers". *)
Definition remove_bold (content : pystr) : pystr :=
  replace content (str "**") (str "").

(** "Clean up bullet points - standardize to hyphens". *)
Definition standardize_bullets (content : pystr) : pystr :=
  let content := replace content (str "•") (str "-") in
  let content := replace content (str "◦") (str "-") in
  let content := replace content (str "▪") (str "-") in
  content.

(** The substitutions between the prefix loop and the line loop, in the
    order of the source. *)
Definition normalize (content : pystr) : pystr :=
  let content := replace_dashes content in
  let content := remove_bold content in
  let content := standardize_bullets content in
  content.

(** The clean-up of the response text, from the prefix list to the final
    [join] (the content sanitizer). *)
Definition sanitize (content : pystr) : pystr :=
  let content := remove_prefix prefixes_to_remove content in
  let content := normalize content in
  let lines := split content LF in
  let cleaned_lines := clean_lines lines in
  join (str "
") cleaned_lines.

(** The body of the [try] of [generate_policy_content]. *)
Definition generate_body (env : Env) (create : Service)
    (form_data : gmap string pystr) : M pystr :=
  prompt <- build_prompt form_data ;;
  configure_openai env ;;;
  response <- complete create prompt model_names ;;
  match response with
  | [] => raise (str "list index out of range")
  | None :: _ => raise (str "'NoneType' object has no attribute 'strip'")
  | Some content :: _ => ret (sanitize content)
  end.

Definition generate_policy_content (env : Env) (create : Service)
    (form_data : gmap string pystr) : list event -> pystr * list event :=
  try_except (generate_body env create form_data)
    (fun e => str "Error generating policy content: " ++ e).

End Generation.

(** *** The Word document

    The document under construction is the list of its body blocks, in order.
    [add_heading] and [add_paragraph] append one block; a paragraph holds the
    texts of its runs, and [add_paragraph(text, style)] gives it one run when
    [text] is not empty. Margins, alignment and character formatting are
    attributes of these objects that no block depends on; they are left out.
    The functions below say which blocks the calls add; that python-docx may
    refuse a text it is handed is modelled apart, by [Docx], and enters
    [create_word_document]. *)

Inductive block :=
| Heading (text : pystr) (level : nat)
| Paragraph (style : option string) (runs : list pystr).

Abbreviation document := (list block) (only parsing).

Definition add_heading (doc : document) (text : pystr) (level : nat) : document :=
  doc ++ [Heading text level].

Definition add_paragraph (doc : document) (text : pystr) (style : option string)
  : document :=
  doc ++ [Paragraph style (if truthy text then [text] else [])].

(** [paragraph.add_run(text)] on one block. *)
Definition add_run (text : pystr) (b : block) : block :=
  match b with
  | Paragraph style runs => Paragraph style (runs ++ [text])
  | Heading t level => Heading (t ++ text) level
  end.

(** [paragraph.text]. *)
Definition block_text (b : block) : pystr :=
  match b with
  | Paragraph _ runs => concat runs
  | Heading t _ => t
  end.

(** [add_heading], [add_paragraph] and [add_run] hand their text, when it is
    not empty, to python-docx, which writes it into the XML tree and may
    refuse it with an exception: lxml raises [ValueError] on a control
    character. What the library answers to a text is an interface of the
    model: [set_text text] is the text of the exception, if any. *)
Class Docx := {
  set_text : pystr -> option pystr
}.

(** The texts handed over for a block, and for a document, in the order of
    the calls: a run is always added to the block added last. *)
Definition block_texts (b : block) : list pystr :=
  match b with
  | Paragraph _ runs => runs
  | Heading t _ => [t]
  end.

Definition texts (doc : document) : list pystr := flat_map block_texts doc.

(** The exception of the first text that is refused. *)
Fixpoint refusal `{Docx} (ts : list pystr) : option pystr :=
  match ts with
  | [] => None
  | text :: rest =>
    if truthy text then
      match set_text text with
      | Some e => Some e
      | None => refusal rest
      end
    else refusal rest
  end.

Definition hand_over `{Docx} (ts : list pystr) : M unit :=
  match refusal ts with
  | Some e => raise e
  | None => ret tt
  end.

(** The rule of lxml for a text whose code points all encode as UTF-8: it
    is refused when it holds a control character other than tab, line feed
    and carriage return, or one of U+FFFE and U+FFFF. *)
Definition xml_char (c : codepoint) : bool :=
  (c =? 9)%N || (c =? 10)%N || (c =? 13)%N
  || ((32 <=? c)%N && negb (c =? 65534)%N && negb (c =? 65535)%N).

Definition lxml : Docx := {|
  set_text := fun text =>
    if forallb xml_char text then None
    else Some (str "All strings must be XML compatible: Unicode or ASCII, no NULL bytes or control characters")
|}.

Section Rendering.
Context `{CaseTables}.

(** [current_paragraph] is a reference to a paragraph object that lives in
    the document: it is kept as the position of that block, and a run added
    through it changes the block in place. *)
Definition text_at (doc : document) (i : nat) : pystr :=
  match doc !! i with
  | Some b => block_text b
  | None => []
  end.

(** One iteration of [for line in lines] in [create_word_document]. *)
Definition render_line (st : document * option nat) (line : pystr)
  : document * option nat :=
  let '(doc, current_paragraph) := st in
  let line := strip line in
  if negb (truthy line) then
    ((match current_paragraph with
      | Some _ => add_paragraph doc [] None
      | None => doc
      end), None)
  else if startswith line (str "##") then
    (add_heading doc (strip (replace line (str "##") (str ""))) 2, None)
  else if startswith line (str "#") then
    (add_heading doc (strip (replace line (str "#") (str ""))) 1, None)
  else if endswith line (str ":") || (isupper line && (10 <? length line)%nat) then
    (add_heading doc (rstrip line (str ":")) 2, None)
  else if startswith line (str "-") || startswith line (str "•")
          || startswith line (str "* ") then
    let bullet_text :=
      if startswith line (str "-") then strip (drop 1 line)
      else strip (drop 2 line) in
    (add_paragraph doc bullet_text (Some "List Bullet"), None)
  else if existsb (fun d => startswith line [d]) (str "123456789")
          && (contains (str ". ") (take 5 line) || contains (str ") ") (take 5 line)) then
    (add_paragraph doc line (Some "List Number"), None)
  else
    let '(doc, p) :=
      match current_paragraph with
      | None => (add_paragraph doc [] None, length doc)
      | Some p => (doc, p)
      end in
    let doc := if truthy (text_at doc p) then alter (add_run (str " ")) p doc else doc in
    (alter (add_run line) p doc, Some p).

(** The whole loop over [policy_content.split('\n')], from a document already
    holding the cover blocks. *)
Definition render_lines (doc : document) (lines : list pystr) : document * option nat :=
  foldl render_line (doc, None) lines.

(** The tests of [render_line] that make a stripped line a heading, a bullet
    or a numbered item. *)
Definition structural (line : pystr) : bool :=
  startswith line (str "##") || startswith line (str "#")
  || (endswith line (str ":") || (isupper line && (10 <? length line)%nat))
  || (startswith line (str "-") || startswith line (str "•")
      || startswith line (str "* "))
  || (existsb (fun d => startswith line [d]) (str "123456789")
      && (contains (str ". ") (take 5 line) || contains (str ") ") (take 5 line))).

(** A plain line: not blank, and none of the above. *)
Definition plain (line : pystr) : bool :=
  truthy (strip line) && negb (structural (strip line)).


(** The runs of a paragraph made of the given lines: the first line, then a
    space and the line for each further one. *)
Definition runs_of (lines : list pystr) : list pystr :=
  match lines with
  | [] => []
  | l :: rest => l :: flat_map (fun x => [str " "; x]) rest
  end.

(** [datetime.now()] as the program formats it. *)
Record Clock := {
  strftime_B_d_Y : pystr;
  strftime_Ymd_HM : pystr
}.

Definition cover (now : Clock) (client_name policy_type : pystr) : document :=
  let doc := [] in
  let doc := add_paragraph doc [] None in
  let doc := alter (add_run (str "CRIMSON IT")) 0%nat doc in
  let doc := add_paragraph doc [] None in
  let doc := alter (add_run (upper client_name)) 1%nat doc in
  let doc := add_paragraph doc [] None in
  let doc := alter (add_run policy_type) 2%nat doc in
  let doc := add_paragraph doc [] None in
  let doc := alter (add_run (str "Document Generated: " ++ strftime_B_d_Y now)) 3%nat doc in
  let doc := alter (add_run (str "
Managed by: Crimson IT (MSP/MSSP)")) 3%nat doc in
  let doc := add_paragraph doc (replicate 60 95) None in
  let doc := add_paragraph doc [] None in
  doc.

Definition footer (doc : document) : document :=
  let doc := add_paragraph doc [] None in
  let footer_para := length doc in
  let doc := add_paragraph doc [] None in
  let doc := alter (add_run (str "This document was generated by Crimson IT's AI-powered policy generator.")) footer_para doc in
  let doc := alter (add_run (str "
For questions or updates, contact your Crimson IT representative.")) footer_para doc in
  doc.

Context `{Docx}.

(** [create_word_document]. The blocks are built by [cover], [render_lines]
    and [footer]; building them has no effect outside the document, which is
    lost when an exception is raised, and the blocks keep every text handed
    to python-docx, in the order of the calls (each line adds its texts
    after those already there). So the refusals of the library
    are replayed on these texts: before each key of [form_data] is read, for
    the texts handed over by then, and at the end for all of them. Any
    exception is raised again with the prefix. *)
Definition create_word_document (now : Clock) (form_data : gmap string pystr)
    (policy_content : pystr) : M document :=
  fun log =>
    match (hand_over [str "CRIMSON IT"] ;;;
           client_name <- getitem form_data "client_name" ;;
           hand_over [str "CRIMSON IT"; upper client_name] ;;;
           policy_type <- getitem form_data "policy_type" ;;
           let doc := cover now client_name policy_type in
           let lines := split policy_content LF in
           let '(doc, _) := render_lines doc lines in
           let doc := footer doc in
           hand_over (texts doc) ;;;
           ret doc) log with
    | (inl e, log') => (inl (str "Error creating Word document: " ++ e), log')
    | r => r
    end.

(** *** The endpoint *)

Inductive http_response :=
| Json (status : nat) (error : pystr)
| SendFile (download_name : pystr) (doc : document).

(** [request.form.get(k, '')]. *)
Definition form_get (form : gmap string pystr) (k : string) : pystr :=
  default [] (form !! k).

Definition tech_fields : list string := [
  "platform_choice"; "mdr_solution"; "email_security"; "siem_solution";
  "pam_solution"; "disk_encryption"; "mdm_computers"; "mdm_mobile"; "security_training";
  "phishing_tests"; "vulnerability_scans"; "dark_web_monitoring"; "mfa_solution";
  "password_manager"; "intrusion_detection"; "additional_tech"
].

(** [for field in tech_fields: ... tech_components.append(value)]. *)
Fixpoint collect_tech (form : gmap string pystr) (fields : list string)
    (tech_components : list pystr) : list pystr :=
  match fields with
  | [] => tech_components
  | field :: rest =>
    let value := strip (form_get form field) in
    if truthy value && negb (eqb value (str "None"))
    then collect_tech form rest (tech_components ++ [value])
    else collect_tech form rest tech_components
  end.

Definition required_fields : list string :=
  ["client_name"; "industry"; "company_size"; "policy_type"; "tech_stack"].

(** The dictionary built from the submitted form, [tech_stack] included. *)
Definition build_form_data (form : gmap string pystr) : gmap string pystr :=
  let form_data : gmap string pystr :=
    <["client_name" := strip (form_get form "client_name")]>
    (<["industry" := strip (form_get form "industry")]>
    (<["company_size" := strip (form_get form "company_size")]>
    (<["policy_type" := strip (form_get form "policy_type")]>
    (<["compliance_requirements" := strip (form_get form "compliance_requirements")]>
    (<["additional_requirements" := strip (form_get form "additional_requirements")]>
     ∅))))) in
  let tech_components := collect_tech form tech_fields [] in
  <["tech_stack" :=
      match tech_components with
      | [] => str "Standard business technology stack"
      | _ :: _ => join (str ", ") tech_components
      end]> form_data.

(** [[field for field in required_fields if not form_data[field]]]; every
    required key is in [form_data] by construction. *)
Definition missing_fields (form_data : gmap string pystr) : list string :=
  List.filter (fun field => negb (truthy (form_data !!! field))) required_fields.

Definition safe_name (s : pystr) : pystr :=
  rstrip_by isspace
    (List.filter (fun c => isalnum c || existsb (N.eqb c) (str " -_")) s).

Definition generate_policy (env : Env) (create : Service) (now : Clock)
    (form : gmap string pystr) : list event -> http_response * list event :=
  try_except
    (let form_data := build_form_data form in
     let missing := missing_fields form_data in
     match missing with
     | _ :: _ =>
       ret (Json 400 (str "Missing required fields: " ++ join (str ", ") (map str missing)))
     | [] =>
       policy_content <- (fun log =>
         let '(c, log') := generate_policy_content env create form_data log in
         (inr c, log')) ;;
       if startswith policy_content (str "Error generating policy content:")
       then ret (Json 500 policy_content)
       else
         doc <- create_word_document now form_data policy_content ;;
         emit EvSaveTempFile ;;;
         let safe_client_name := safe_name (form_data !!! "client_name") in
         let safe_policy_type := safe_name (form_data !!! "policy_type") in
         let timestamp := strftime_Ymd_HM now in
         let filename := safe_client_name ++ str "_" ++ safe_policy_type ++ str "_"
                         ++ timestamp ++ str ".docx" in
         ret (SendFile filename doc)
     end)
    (fun e => Json 500 (str "An error occurred: " ++ e)).

End Rendering.
End App.

(** ** The technology mapper of [itglue_integration.py] *)

Module ITGlue.

(** A value of the [tech_stack] dictionary: a list of configuration items
    (dictionaries with string values), or anything else. The dictionary is
    walked in insertion order, so it is kept as an association list. *)
Inductive category :=
| ConfigList (items : list (gmap string pystr))
| NotAList.

(** [k in text]. *)
Definition has (k : string) (text : pystr) : bool := contains (str k) text.

Section Tables.
Context `{CaseTables}.

(** [all_configs]: the items of the values that are lists. *)
Fixpoint collect_configs (values : list (string * category))
  : list (gmap string pystr) :=
  match values with
  | [] => []
  | (_, ConfigList items) :: rest => items ++ collect_configs rest
  | (_, NotAList) :: rest => collect_configs rest
  end.

(** [' '.join(config.get('name', '').lower() for config in all_configs)]. *)
Definition config_text_of (tech_stack : list (string * category)) : pystr :=
  let all_configs := collect_configs tech_stack in
  let config_names := map (fun config => lower (default [] (config !! "name"))) all_configs in
  join (str " ") config_names.

(** The detection blocks of [_map_technology_stack], in the order of the
  source; each reads the text of configuration names and may set fields of
  [tech_fields]. *)

(** "Platform Choice Detection". *)
Definition platform_choice_detection (config_text : pystr) (tech_fields : gmap string pystr)
  : gmap string pystr :=
  if has "microsoft 365" config_text || has "office 365" config_text
     || has "azure" config_text || has "o365" config_text
  then <["platform_choice" := str "Microsoft 365 / Azure"]> tech_fields
  else if has "google workspace" config_text || has "gmail" config_text
     || has "gsuite" config_text
  then <["platform_choice" := str "Google Workspace"]> tech_fields
  else <["platform_choice" := str "Microsoft 365 / Azure"]> tech_fields.

(** "MDR/Endpoint Protection Detection". *)
Definition mdr_detection (config_text : pystr) (tech_fields : gmap string pystr)
  : gmap string pystr :=
  if has "sophos" config_text
  then <["mdr_solution" := str "Sophos MDR"]> tech_fields
  else if has "crowdstrike" config_text || has "sentinel" config_text
  then <["mdr_solution" := str "Other MDR"]> tech_fields
  else if has "antivirus" config_text || has "defender" config_text
  then <["mdr_solution" := str "Traditional Antivirus Only"]> tech_fields
  else <["mdr_solution" := str "Sophos MDR"]> tech_fields.

(** "Email Security Detection". *)
Definition email_security_detection (config_text : pystr) (tech_fields : gmap string pystr)
  : gmap string pystr :=
  if has "avanan" config_text
  then <["email_security" := str "Avanan Email Security"]> tech_fields
  else if has "defender" config_text || has "atp" config_text
  then <["email_security" := str "Microsoft Defender"]> tech_fields
  else if has "proofpoint" config_text || has "mimecast" config_text
  then <["email_security" := str "Other Email Security"]> tech_fields
  else tech_fields.

(** "SIEM Detection". *)
Definition siem_detection (config_text : pystr) (tech_fields : gmap string pystr)
  : gmap string pystr :=
  if has "siem" config_text || has "splunk" config_text || has "sentinel" config_text
  then <["siem_solution" := str "SIEM with SOC monitoring"]> tech_fields
  else if has "log" config_text && has "monitor" config_text
  then <["siem_solution" := str "Basic log collection"]> tech_fields
  else tech_fields.

(** "PAM Detection". *)
Definition pam_detection (config_text : pystr) (tech_fields : gmap string pystr)
  : gmap string pystr :=
  if has "senhasegura" config_text
  then <["pam_solution" := str "Senhasegura PAM"]> tech_fields
  else if has "cyberark" config_text || has "thycotic" config_text
     || has "beyondtrust" config_text
  then <["pam_solution" := str "Other PAM"]> tech_fields
  else tech_fields.

(** "Disk Encryption Detection". *)
Definition disk_encryption_detection (config_text : pystr) (tech_fields : gmap string pystr)
  : gmap string pystr :=
  if has "bitlocker" config_text
  then if has "filevault" config_text
       then <["disk_encryption" := str "Both BitLocker and FileVault"]> tech_fields
       else <["disk_encryption" := str "BitLocker (Windows)"]> tech_fields
  else if has "filevault" config_text
  then <["disk_encryption" := str "FileVault (macOS)"]> tech_fields
  else tech_fields.

(** "MDM Detection". *)
Definition mdm_detection (config_text : pystr) (tech_fields : gmap string pystr)
  : gmap string pystr :=
  if has "intune" config_text
  then <["mdm_mobile" := str "Microsoft Intune"]>
         (<["mdm_computers" := str "Microsoft Intune"]> tech_fields)
  else if has "jamf" config_text || has "airwatch" config_text
  then <["mdm_mobile" := str "Other MDM"]>
         (<["mdm_computers" := str "Other MDM"]> tech_fields)
  else tech_fields.

(** "Security Training Detection". *)
Definition security_training_detection (config_text : pystr) (tech_fields : gmap string pystr)
  : gmap string pystr :=
  if has "knowbe4" config_text
  then if has "monthly" config_text
       then <["security_training" := str "KnowBe4 Monthly Training"]> tech_fields
       else <["security_training" := str "KnowBe4 Quarterly Training"]> tech_fields
  else tech_fields.

(** "Phishing Tests Detection". *)
Definition phishing_tests_detection (config_text : pystr) (tech_fields : gmap string pystr)
  : gmap string pystr :=
  if has "knowbe4" config_text || has "phishing" config_text
  then <["phishing_tests" := str "Monthly Phishing Tests"]> tech_fields
  else tech_fields.

(** "Vulnerability Scanning Detection". *)
Definition vulnerability_scanning_detection (config_text : pystr) (tech_fields : gmap string pystr)
  : gmap string pystr :=
  if has "vulnerability" config_text || has "nessus" config_text || has "qualys" config_text
  then if has "monthly" config_text
       then <["vulnerability_scans" := str "Monthly Vulnerability Scans"]> tech_fields
       else <["vulnerability_scans" := str "Quarterly Vulnerability Scans"]> tech_fields
  else tech_fields.

(** "Dark Web Monitoring Detection". *)
Definition dark_web_monitoring_detection (config_text : pystr) (tech_fields : gmap string pystr)
  : gmap string pystr :=
  if has "darkwebid" config_text || has "dark web" config_text
  then <["dark_web_monitoring" := str "DarkWebID Monitoring"]> tech_fields
  else if has "breach" config_text && has "monitor" config_text
  then <["dark_web_monitoring" := str "Other Dark Web Monitoring"]> tech_fields
  else tech_fields.

(** "MFA Detection". *)
Definition mfa_detection (config_text : pystr) (tech_fields : gmap string pystr)
  : gmap string pystr :=
  if has "microsoft" config_text && (has "mfa" config_text || has "authenticator" config_text)
  then <["mfa_solution" := str "Microsoft MFA"]> tech_fields
  else if has "duo" config_text
  then <["mfa_solution" := str "Duo Security"]> tech_fields
  else if has "mfa" config_text || has "two-factor" config_text || has "2fa" config_text
  then <["mfa_solution" := str "Other MFA"]> tech_fields
  else tech_fields.

(** "Password Manager Detection". *)
Definition password_manager_detection (config_text : pystr) (tech_fields : gmap string pystr)
  : gmap string pystr :=
  if has "lastpass" config_text
  then <["password_manager" := str "LastPass Business"]> tech_fields
  else if has "1password" config_text || has "dashlane" config_text || has "keeper" config_text
  then <["password_manager" := str "Other Password Manager"]> tech_fields
  else tech_fields.

(** "Intrusion Detection Detection". *)
Definition intrusion_detection_detection (config_text : pystr) (tech_fields : gmap string pystr)
  : gmap string pystr :=
  if has "ids" config_text || has "ips" config_text || has "intrusion" config_text
  then <["intrusion_detection" := str "Network Intrusion Detection System"]> tech_fields
  else if has "firewall" config_text && (has "sonicwall" config_text
     || has "fortinet" config_text || has "palo alto" config_text)
  then <["intrusion_detection" := str "Firewall with IDS/IPS"]> tech_fields
  else if has "firewall" config_text || has "meraki" config_text
  then <["intrusion_detection" := str "Basic Firewall"]> tech_fields
  else tech_fields.

Definition _map_technology_stack (tech_stack : list (string * category))
  : gmap string pystr :=
  let tech_fields : gmap string pystr := ∅ in
  let config_text := config_text_of tech_stack in
  let tech_fields := platform_choice_detection config_text tech_fields in
  let tech_fields := mdr_detection config_text tech_fields in
  let tech_fields := email_security_detection config_text tech_fields in
  let tech_fields := siem_detection config_text tech_fields in
  let tech_fields := pam_detection config_text tech_fields in
  let tech_fields := disk_encryption_detection config_text tech_fields in
  let tech_fields := mdm_detection config_text tech_fields in
  let tech_fields := security_training_detection config_text tech_fields in
  let tech_fields := phishing_tests_detection config_text tech_fields in
  let tech_fields := vulnerability_scanning_detection config_text tech_fields in
  let tech_fields := dark_web_monitoring_detection config_text tech_fields in
  let tech_fields := mfa_detection config_text tech_fields in
  let tech_fields := password_manager_detection config_text tech_fields in
  let tech_fields := intrusion_detection_detection config_text tech_fields in
  tech_fields.

End Tables.

(** *** The rule tables of the specification

    Each target field has an ordered list of rules (a test on the text of
    configuration names, and the value it selects); the first rule whose test
    holds decides the field. Two fields have a fallback value. These tables
    follow the wording of the specification and are compared with
    [_map_technology_stack] below. *)

Definition rule : Type := (pystr -> bool) * string.

Definition any_of (ks : list string) (text : pystr) : bool :=
  existsb (fun k => has k text) ks.
Definition all_of (ks : list string) (text : pystr) : bool :=
  forallb (fun k => has k text) ks.

Definition rules_of (field : string) : list rule :=
  if String.eqb field "platform_choice" then
    [(any_of ["microsoft 365"; "office 365"; "azure"; "o365"], "Microsoft 365 / Azure");
     (any_of ["google workspace"; "gmail"; "gsuite"], "Google Workspace")]
  else if String.eqb field "mdr_solution" then
    [(has "sophos", "Sophos MDR");
     (any_of ["crowdstrike"; "sentinel"], "Other MDR");
     (any_of ["antivirus"; "defender"], "Traditional Antivirus Only")]
  else if String.eqb field "email_security" then
    [(has "avanan", "Avanan Email Security");
     (any_of ["defender"; "atp"], "Microsoft Defender");
     (any_of ["proofpoint"; "mimecast"], "Other Email Security")]
  else if String.eqb field "siem_solution" then
    [(any_of ["siem"; "splunk"; "sentinel"], "SIEM with SOC monitoring");
     (all_of ["log"; "monitor"], "Basic log collection")]
  else if String.eqb field "pam_solution" then
    [(has "senhasegura", "Senhasegura PAM");
     (any_of ["cyberark"; "thycotic"; "beyondtrust"], "Other PAM")]
  else if String.eqb field "disk_encryption" then
    [(all_of ["bitlocker"; "filevault"], "Both BitLocker and FileVault");
     (has "bitlocker", "BitLocker (Windows)");
     (has "filevault", "FileVault (macOS)")]
  else if String.eqb field "mdm_computers" || String.eqb field "mdm_mobile" then
    [(has "intune", "Microsoft Intune");
     (any_of ["jamf"; "airwatch"], "Other MDM")]
  else if String.eqb field "security_training" then
    [(all_of ["knowbe4"; "monthly"], "KnowBe4 Monthly Training");
     (has "knowbe4", "KnowBe4 Quarterly Training")]
  else if String.eqb field "phishing_tests" then
    [(any_of ["knowbe4"; "phishing"], "Monthly Phishing Tests")]
  else if String.eqb field "vulnerability_scans" then
    [((fun t => any_of ["vulnerability"; "nessus"; "qualys"] t && has "monthly" t),
      "Monthly Vulnerability Scans");
     (any_of ["vulnerability"; "nessus"; "qualys"], "Quarterly Vulnerability Scans")]
  else if String.eqb field "dark_web_monitoring" then
    [(any_of ["darkwebid"; "dark web"], "DarkWebID Monitoring");
     (all_of ["breach"; "monitor"], "Other Dark Web Monitoring")]
  else if String.eqb field "mfa_solution" then
    [((fun t => has "microsoft" t && any_of ["mfa"; "authenticator"] t), "Microsoft MFA");
     (has "duo", "Duo Security");
     (any_of ["mfa"; "two-factor"; "2fa"], "Other MFA")]
  else if String.eqb field "password_manager" then
    [(has "lastpass", "LastPass Business");
     (any_of ["1password"; "dashlane"; "keeper"], "Other Password Manager")]
  else if String.eqb field "intrusion_detection" then
    [(any_of ["ids"; "ips"; "intrusion"], "Network Intrusion Detection System");
     ((fun t => has "firewall" t && any_of ["sonicwall"; "fortinet"; "palo alto"] t),
      "Firewall with IDS/IPS");
     (any_of ["firewall"; "meraki"], "Basic Firewall")]
  else [].

Definition fallback (field : string) : option string :=
  if String.eqb field "platform_choice" then Some "Microsoft 365 / Azure"
  else if String.eqb field "mdr_solution" then Some "Sophos MDR"
  else None.

Fixpoint first_match (rules : list rule) (text : pystr) : option string :=
  match rules with
  | [] => None
  | (test, value) :: rest => if test text then Some value else first_match rest text
  end.

(** The value of one field according to the tables. *)
Definition decided (field : string) (text : pystr) : option pystr :=
  match first_match (rules_of field) text with
  | Some value => Some (str value)
  | None => str <$> fallback field
  end.

End ITGlue.

(** ** The health endpoint of [app.py] *)

Module Health.
Import App.

(** The dictionary [health_info]; [env_check] is flattened into its two
    members, and the two keys that are set later are absent when [None]. *)
Record health_info := {
  status : pystr;
  version : pystr;
  openai_configured : bool;
  api_key_present : bool;
  endpoint_present : bool;
  model_availability : option (list (pystr * pystr));
  openai_test_error : option pystr
}.

(** What the view returns: the dictionary, or the error dictionary with
    status 500. *)
Inductive health_response :=
| Info (info : health_info)
| Failed (error : pystr).

(** [bool(x)] for a value of [os.getenv]. *)
Definition present (x : option pystr) : bool :=
  match x with
  | Some s => truthy s
  | None => false
  end.

(** [d[k] = v] on a dictionary kept in insertion order: a key already there
    keeps its place. *)
Fixpoint setitem (d : list (pystr * pystr)) (k v : pystr) : list (pystr * pystr) :=
  match d with
  | [] => [(k, v)]
  | (k', v') :: rest =>
    if eqb k' k then (k', v) :: rest else (k', v') :: setitem rest k v
  end.

(** [for model in model_names: try: ... except Exception as e: ...]: every
    name is probed, whatever the earlier probes gave. *)
Fixpoint probe_models (create : Service) (names : list pystr)
    (test_results : list (pystr * pystr))
  : list event -> list (pystr * pystr) * list event :=
  fun log =>
    match names with
    | [] => (test_results, log)
    | model :: rest =>
      match ChatCompletion_create create model (str "Hello") log with
      | (inr response, log') =>
        probe_models create rest (setitem test_results model (str "available")) log'
      | (inl e, log') =>
        probe_models create rest (setitem test_results model (str "error: " ++ e)) log'
      end
    end.

Definition health (env : Env) (create : Service)
  : list event -> health_response * list event :=
  try_except
    (let api_key := AZURE_OPENAI_API_KEY env in
     let endpoint := AZURE_OPENAI_ENDPOINT env in
     let health_info :=
       {| status := str "healthy";
          version := str "2.0.2";
          openai_configured := present api_key && present endpoint;
          api_key_present := present api_key;
          endpoint_present := present endpoint;
          model_availability := None;
          openai_test_error := None |} in
     if present api_key && present endpoint then
       fun log =>
         match (configure_openai env ;;;
                fun log0 =>
                  let '(test_results, log1) := probe_models create model_names [] log0 in
                  (inr test_results, log1)) log with
         | (inr test_results, log') =>
           (inr (Info {| status := status health_info;
                         version := version health_info;
                         openai_configured := openai_configured health_info;
                         api_key_present := api_key_present health_info;
                         endpoint_present := endpoint_present health_info;
                         model_availability := Some test_results;
                         openai_test_error := openai_test_error health_info |}), log')
         | (inl e, log') =>
           (inr (Info {| status := status health_info;
                         version := version health_info;
                         openai_configured := openai_configured health_info;
                         api_key_present := api_key_present health_info;
                         endpoint_present := endpoint_present health_info;
                         model_availability := model_availability health_info;
                         openai_test_error := Some e |}), log')
         end
     else ret (Info health_info))
    Failed.

End Health.

(** ** The IT Glue client of [itglue_integration.py] *)

Module ITGlueAPI.
Import ITGlue.

(** A resource object of the API: its [id] and its [attributes], whose
    members are strings or [null]. A member that is absent is absent from the
    map; a resource without [attributes] has the empty map, which is what
    [get('attributes', {})] gives. *)
Record resource := {
  res_id : option pystr;
  attributes : gmap string (option pystr)
}.

(** The dictionary [_make_request] returns, as far as the callers look at
    it: without a [data] member (an error dictionary, an empty answer), or
    with [data] being [null], one resource object or a list of them. *)
Inductive reply :=
| NoData
| DataNull
| DataOne (item : resource)
| DataList (items : list resource).

(** One request: the endpoint and the query parameters. *)
Record request := {
  endpoint : pystr;
  params : list (string * pystr)
}.

(** The remote service: its answer may depend on the requests made before. *)
Definition Api := list request -> request -> reply.

(** [str(n)] for an integer. *)
Definition str_of_int (n : Z) : pystr := str (NilEmpty.string_of_int (Z.to_int n)).

(** [self._make_request('GET', endpoint, params)]: no request leaves without
    an API key; a transport error or an error status gives an error
    dictionary, which the service answer [NoData] stands for. The model takes
    the answers that decode as JSON with resources of the documented shape
    (an [attributes] object whose members are strings or [null]); log records
    are not part of it. *)
Definition _make_request (api_key : option pystr) (api : Api)
    (endpoint : pystr) (params : list (string * pystr))
  : list request -> reply * list request :=
  fun sent =>
    if negb (Health.present api_key) then (NoData, sent)
    else
      let req := {| endpoint := endpoint; params := params |} in
      (api sent req, sent ++ [req]).

(** [d.get(k, default)] on [attributes]: the default only when the member is
    absent. *)
Definition attr_get (attrs : gmap string (option pystr)) (k : string)
    (dflt : pystr) : option pystr :=
  match attrs !! k with
  | Some v => v
  | None => Some dflt
  end.

(** [x.lower()] for a string or [None]. *)
Definition lower_of `{CaseTables} (x : option pystr) : pystr + pystr :=
  match x with
  | Some s => inr (lower s)
  | None => inl (str "'NoneType' object has no attribute 'lower'")
  end.

(** The four-member dictionaries built for organizations and configuration
    items. *)
Definition entry (id name type status : option pystr) : gmap string (option pystr) :=
  <["id" := id]> (<["name" := name]> (<["type" := type]> (<["status" := status]> ∅))).

Section Tables.
Context `{CaseTables}.

(** The loop of [get_active_organizations]. *)
Fixpoint active_loop (data : list resource)
    (organizations : list (gmap string (option pystr)))
  : pystr + list (gmap string (option pystr)) :=
  match data with
  | [] => inr organizations
  | org :: rest =>
    let attributes := attributes org in
    match lower_of (attr_get attributes "organization-status-name" []) with
    | inl e => inl e
    | inr org_status =>
      if contains (str "active") org_status
      then active_loop rest
             (organizations ++
                [entry (res_id org)
                   (attr_get attributes "name" [])
                   (attr_get attributes "organization-type-name" [])
                   (attr_get attributes "organization-status-name" [])])
      else active_loop rest organizations
    end
  end.

(** [get_active_organizations]: any exception gives the empty list. An answer
    whose [data] is not a list raises when it is iterated or when [get] is
    called on its elements. *)
Definition get_active_organizations (api_key : option pystr) (api : Api)
  : list request -> list (gmap string (option pystr)) * list request :=
  fun sent =>
    let '(result, sent') :=
      _make_request api_key api (str "/organizations")
        [("page[size]", str "500"); ("sort", str "name")] sent in
    match result with
    | DataList data =>
      match active_loop data [] with
      | inr organizations => (organizations, sent')
      | inl _ => ([], sent')
      end
    | _ => ([], sent')
    end.

(** The dictionary [tech_stack] of [_parse_configurations]: five lists, in
    the order of its keys. *)
Record buckets := {
  endpoints : list (gmap string (option pystr));
  network : list (gmap string (option pystr));
  security : list (gmap string (option pystr));
  cloud : list (gmap string (option pystr));
  other : list (gmap string (option pystr))
}.

Definition no_buckets : buckets :=
  {| endpoints := []; network := []; security := []; cloud := []; other := [] |}.

(** The loop of [_parse_configurations]; [config_item['type'].lower()] raises
    on a [null] type. *)
Fixpoint parse_loop (configurations : list resource) (tech_stack : buckets)
  : pystr + buckets :=
  match configurations with
  | [] => inr tech_stack
  | config :: rest =>
    let attributes := attributes config in
    let config_item :=
      entry (res_id config)
        (attr_get attributes "name" [])
        (attr_get attributes "configuration-type-name" [])
        (attr_get attributes "configuration-status-name" []) in
    match lower_of (attr_get attributes "configuration-type-name" []) with
    | inl e => inl e
    | inr config_type =>
      let has := fun k : string => contains (str k) config_type in
      if has "server" || has "workstation" || has "laptop" then
        parse_loop rest
          {| endpoints := endpoints tech_stack ++ [config_item];
             network := network tech_stack; security := security tech_stack;
             cloud := cloud tech_stack; other := other tech_stack |}
      else if has "firewall" || has "switch" || has "router" then
        parse_loop rest
          {| endpoints := endpoints tech_stack;
             network := network tech_stack ++ [config_item];
             security := security tech_stack;
             cloud := cloud tech_stack; other := other tech_stack |}
      else if has "security" || has "antivirus" then
        parse_loop rest
          {| endpoints := endpoints tech_stack; network := network tech_stack;
             security := security tech_stack ++ [config_item];
             cloud := cloud tech_stack; other := other tech_stack |}
      else if has "cloud" || has "saas" then
        parse_loop rest
          {| endpoints := endpoints tech_stack; network := network tech_stack;
             security := security tech_stack;
             cloud := cloud tech_stack ++ [config_item]; other := other tech_stack |}
      else
        parse_loop rest
          {| endpoints := endpoints tech_stack; network := network tech_stack;
             security := security tech_stack; cloud := cloud tech_stack;
             other := other tech_stack ++ [config_item] |}
    end
  end.

Definition _parse_configurations (configurations : list resource) : pystr + buckets :=
  parse_loop configurations no_buckets.

(** The names [_detect_compliance_frameworks] may add. *)
Definition framework_keywords : list (list string * string) :=
  [(["hipaa"], "HIPAA"); (["pci"], "PCI-DSS"); (["nist"], "NIST");
   (["soc 2"; "soc2"], "SOC 2"); (["iso 27001"; "iso27001"], "ISO 27001");
   (["gdpr"], "GDPR"); (["cmmc"], "CMMC")].

(** The seven [if]s on [combined_text] for one configuration. *)
Definition detect_in (combined_text : pystr) (frameworks : gset (list N))
  : gset (list N) :=
  let has := fun k : string => contains (str k) combined_text in
  let frameworks := if has "hipaa" then frameworks ∪ {[ str "HIPAA" ]} else frameworks in
  let frameworks := if has "pci" then frameworks ∪ {[ str "PCI-DSS" ]} else frameworks in
  let frameworks := if has "nist" then frameworks ∪ {[ str "NIST" ]} else frameworks in
  let frameworks :=
    if has "soc 2" || has "soc2" then frameworks ∪ {[ str "SOC 2" ]} else frameworks in
  let frameworks :=
    if has "iso 27001" || has "iso27001"
    then frameworks ∪ {[ str "ISO 27001" ]} else frameworks in
  let frameworks := if has "gdpr" then frameworks ∪ {[ str "GDPR" ]} else frameworks in
  let frameworks := if has "cmmc" then frameworks ∪ {[ str "CMMC" ]} else frameworks in
  frameworks.

(** The loop of [_detect_compliance_frameworks]: the name is lowered as it
    is (a [null] name raises), the notes only when they are a non-empty
    string. *)
Fixpoint detect_loop (configurations : list resource) (frameworks : gset (list N))
  : pystr + gset (list N) :=
  match configurations with
  | [] => inr frameworks
  | config :: rest =>
    let attributes := attributes config in
    match lower_of (attr_get attributes "name" []) with
    | inl e => inl e
    | inr name =>
      let notes :=
        match attributes !! "notes" with
        | Some (Some n) => if truthy n then lower n else []
        | _ => []
        end in
      let combined_text := name ++ str " " ++ notes in
      detect_loop rest (detect_in combined_text frameworks)
    end
  end.

(** [list(frameworks)]: a Python set has no order the program controls, so
    the order of the list is that of an arbitrary listing of the set. *)
Variable listing : gset (list N) -> list pystr.

Definition _detect_compliance_frameworks (configurations : list resource)
  : pystr + list pystr :=
  match detect_loop configurations ∅ with
  | inl e => inl e
  | inr frameworks => inr (listing frameworks)
  end.

(** The dictionary [profile]. *)
Record profile := {
  organization : gmap string (option pystr);
  total_configurations : nat;
  technology_stack : buckets;
  compliance_frameworks : list pystr
}.

(** [get_organization_profile]: [None] on a missing organization and on any
    exception. [data] of a wrong shape raises at the first [get] or [len];
    a resource object is never an empty dictionary, so a single object in
    the place of the configuration list raises in [_parse_configurations]. *)
Definition get_organization_profile (api_key : option pystr) (api : Api) (org_id : Z)
  : list request -> option profile * list request :=
  fun sent =>
    let '(org_result, sent) :=
      _make_request api_key api (str "/organizations/" ++ str_of_int org_id) [] sent in
    match org_result with
    | NoData | DataNull | DataList _ => (None, sent)
    | DataOne org_data =>
      let attributes := attributes org_data in
      let '(config_result, sent) :=
        _make_request api_key api (str "/configurations")
          [("filter[organization_id]", str_of_int org_id); ("page[size]", str "500")]
          sent in
      let built (configurations : list resource) :=
        match _parse_configurations configurations with
        | inl _ => None
        | inr tech_stack =>
          match _detect_compliance_frameworks configurations with
          | inl _ => None
          | inr frameworks =>
            Some {| organization :=
                      <["id" := res_id org_data]>
                      (<["name" := attr_get attributes "name" []]>
                      (<["organization_type" :=
                           attr_get attributes "organization-type-name" []]>
                      (<["status" :=
                           attr_get attributes "organization-status-name" []]> ∅)));
                    total_configurations := length configurations;
                    technology_stack := tech_stack;
                    compliance_frameworks := frameworks |}
          end
        end in
      match config_result with
      | NoData => (built [], sent)
      | DataList configurations => (built configurations, sent)
      | DataNull | DataOne _ => (None, sent)
      end
    end.

(** The dictionary the loop of [get_active_organizations] appends for an
    organization, and the status text it tests (for a status that is not
    [null]). *)
Definition org_entry (org : resource) : gmap string (option pystr) :=
  entry (res_id org)
    (attr_get (attributes org) "name" [])
    (attr_get (attributes org) "organization-type-name" [])
    (attr_get (attributes org) "organization-status-name" []).

Definition text_of (x : option pystr) : pystr :=
  match x with Some s => s | None => [] end.

Definition is_active (org : resource) : bool :=
  contains (str "active")
    (lower (text_of (attr_get (attributes org) "organization-status-name" []))).

(** The dictionary [config_item] of a configuration, and the bucket its
    lowered type name selects: the first of the four tests that holds. *)
Definition config_item_of (config : resource) : gmap string (option pystr) :=
  entry (res_id config)
    (attr_get (attributes config) "name" [])
    (attr_get (attributes config) "configuration-type-name" [])
    (attr_get (attributes config) "configuration-status-name" []).

Inductive bucket := Endpoints | Network | Security | Cloud | Other.

Definition bucket_of (config : resource) : bucket :=
  let config_type :=
    lower (text_of (attr_get (attributes config) "configuration-type-name" [])) in
  let has := fun k : string => contains (str k) config_type in
  if has "server" || has "workstation" || has "laptop" then Endpoints
  else if has "firewall" || has "switch" || has "router" then Network
  else if has "security" || has "antivirus" then Security
  else if has "cloud" || has "saas" then Cloud
  else Other.

Definition in_bucket (b : bucket) (config : resource) : bool :=
  match b, bucket_of config with
  | Endpoints, Endpoints | Network, Network | Security, Security
  | Cloud, Cloud | Other, Other => true
  | _, _ => false
  end.

(** [industry_mapping], in the order of the source. *)
Definition industry_mapping : list (string * string) :=
  [("healthcare", "Healthcare"); ("medical", "Healthcare"); ("hospital", "Healthcare");
   ("clinic", "Healthcare"); ("financial", "Financial Services");
   ("bank", "Financial Services"); ("investment", "Financial Services");
   ("manufacturing", "Manufacturing"); ("factory", "Manufacturing");
   ("retail", "Retail"); ("store", "Retail"); ("shop", "Retail");
   ("technology", "Technology"); ("software", "Technology"); ("saas", "Technology");
   ("education", "Education"); ("school", "Education"); ("university", "Education");
   ("legal", "Legal"); ("law", "Legal"); ("attorney", "Legal")].

(** [for keyword, industry in industry_mapping.items(): ...; return 'Other']. *)
Fixpoint first_industry (items : list (string * string)) (org_type_lower : pystr)
  : pystr :=
  match items with
  | [] => str "Other"
  | (keyword, industry) :: rest =>
    if contains (str keyword) org_type_lower then str industry
    else first_industry rest org_type_lower
  end.

Definition _map_industry (org_type : pystr) : pystr :=
  let org_type_lower := lower org_type in
  first_industry industry_mapping org_type_lower.

Definition _estimate_company_size (config_count : Z) : pystr :=
  if (config_count <? 20)%Z then str "Small (1-50 employees)"
  else if (config_count <? 75)%Z then str "Medium (51-250 employees)"
  else if (config_count <? 200)%Z then str "Large (251-1000 employees)"
  else str "Enterprise (1000+ employees)".

(** [framework_mapping]. *)
Definition framework_mapping : list (string * string) :=
  [("NIST", "NIST Cybersecurity Framework"); ("SOC 2", "SOC 2 Type II");
   ("ISO 27001", "ISO 27001"); ("HIPAA", "HIPAA"); ("PCI-DSS", "PCI DSS");
   ("PCI", "PCI DSS"); ("GDPR", "GDPR"); ("CMMC", "CMMC Level 2")].

(** [mapping[k]] when [k in mapping]. *)
Fixpoint lookup_str (mapping : list (string * string)) (k : pystr) : option pystr :=
  match mapping with
  | [] => None
  | (k', v) :: rest => if eqb (str k') k then Some (str v) else lookup_str rest k
  end.

(** The [for framework in frameworks] loop of [_map_compliance]. *)
Fixpoint first_known (frameworks : list pystr) : option pystr :=
  match frameworks with
  | [] => None
  | framework :: rest =>
    match lookup_str framework_mapping framework with
    | Some v => Some v
    | None => first_known rest
    end
  end.

Definition _map_compliance (frameworks : list pystr) : pystr :=
  match frameworks with
  | [] => []
  | first :: _ =>
    match first_known frameworks with
    | Some v => v
    | None => first
    end
  end.

(** The values of [tech_stack] as [_map_technology_stack] walks them: the
    five lists in the order of the keys. An item whose name is [null] makes
    [config.get('name', '').lower()] raise; of the other items only the
    members that are strings are kept, of which only [name] is read. *)
Definition as_categories (tech_stack : buckets) : list (string * category) :=
  let items := fun l : list (gmap string (option pystr)) =>
    ConfigList (map (omap id) l) in
  [("endpoints", items (endpoints tech_stack)); ("network", items (network tech_stack));
   ("security", items (security tech_stack)); ("cloud", items (cloud tech_stack));
   ("other", items (other tech_stack))].

Definition null_name (item : gmap string (option pystr)) : bool :=
  match item !! "name" with
  | Some None => true
  | _ => false
  end.

Definition all_items (tech_stack : buckets) : list (gmap string (option pystr)) :=
  endpoints tech_stack ++ network tech_stack ++ security tech_stack
  ++ cloud tech_stack ++ other tech_stack.

(** [map_profile_to_form_data]: the empty dictionary without a profile;
    otherwise the four organization fields, then the technology fields
    written over them by [update]. It raises where [lower] meets [None]. *)
Definition map_profile_to_form_data (p : option profile)
  : pystr + gmap string (option pystr) :=
  match p with
  | None => inr ∅
  | Some profile =>
    let org_info := organization profile in
    let tech_stack := technology_stack profile in
    let compliance := compliance_frameworks profile in
    match attr_get org_info "organization_type" [] with
    | None => inl (str "'NoneType' object has no attribute 'lower'")
    | Some org_type =>
      let form_data : gmap string (option pystr) :=
        <["client_name" := attr_get org_info "name" []]>
        (<["industry" := Some (_map_industry org_type)]>
        (<["company_size" :=
             Some (_estimate_company_size (Z.of_nat (total_configurations profile)))]>
        (<["compliance_requirements" := Some (_map_compliance compliance)]> ∅))) in
      if existsb null_name (all_items tech_stack)
      then inl (str "'NoneType' object has no attribute 'lower'")
      else
        let tech_mapping := _map_technology_stack (as_categories tech_stack) in
        inr ((Some <$> tech_mapping) ∪ form_data)
    end
  end.

End Tables.

End ITGlueAPI.

(** ** Example data *)

Module Examples.
Import App ITGlue.

(** The text of the rendering example. *)
Definition example_text : pystr := str "# A

Some body.

- item one
- item two
1. first
".

(** A model answer with a greeting, bold markers, a dash, a bullet glyph, a
    blank line and a closing offer. *)
Definition chatty_answer : pystr := str "Certainly! # Access **Policy** — v1
• item

Let me know if you need more.".

(** A text with one em dash and one bullet glyph. *)
Definition dash_and_bullet : pystr := str "a — b • c".

(** A service whose two deployments both fail, each for its own reason. *)
Definition two_failures : Service :=
  fun _ engine _ =>
    if eqb engine (str "gpt-5-chat") then Raises (str "timeout")
    else Raises (str "quota exceeded").

(** A service whose answer happens to begin like an error report. *)
Definition unlucky_answer : Service :=
  fun _ _ _ => Returns [Some (str "Error generating policy content: none so far")].

(** A configured environment, one without credentials, a clock and a
    complete form. *)
Definition env0 : Env :=
  {| AZURE_OPENAI_API_KEY := Some (str "key");
     AZURE_OPENAI_ENDPOINT := Some (str "https://example.openai.azure.com") |}.

Definition no_credentials : Env :=
  {| AZURE_OPENAI_API_KEY := None; AZURE_OPENAI_ENDPOINT := None |}.

Definition now0 : Clock :=
  {| strftime_B_d_Y := str "November 03, 2026"; strftime_Ymd_HM := str "20261103_1014" |}.

Definition form0 : gmap string pystr :=
  <["client_name" := str " Acme "]>
  (<["industry" := str "Legal"]>
  (<["company_size" := str "Small"]>
  (<["policy_type" := str "Acceptable Use Policy"]> ∅))).

(** The same form with a blank client name. *)
Definition form_no_client : gmap string pystr := <["client_name" := str "   "]> form0.



End Examples.

(** ** More example data *)

Module Scenarios.
Import App.

(** A service whose first deployment fails and whose second answers. *)
Definition second_answers : Service :=
  fun _ engine _ =>
    if eqb engine (str "gpt-5-chat") then Raises (str "deployment not found")
    else Returns [Some (str "# Policy")].

(** A form whose client name holds the control character U+0001. *)
Definition form_control : gmap string pystr :=
  <["client_name" := [65; 1; 66]%N]> Examples.form0.

End Scenarios.

Module ITGlueExamples.
Import ITGlue ITGlueAPI.

(** An organization with the given name and status (a string, or [null]). *)
Definition org (id name : string) (status : option pystr) : resource :=
  {| res_id := Some (str id);
     attributes := <["name" := Some (str name)]>
                   (<["organization-status-name" := status]> ∅) |}.

(** A configuration with the given name and type name. *)
Definition config (id name : string) (type : option pystr) : resource :=
  {| res_id := Some (str id);
     attributes := <["name" := Some (str name)]>
                   (<["configuration-type-name" := type]> ∅) |}.

Definition three_orgs : list resource :=
  [org "1" "Acme" (Some (str "Active")); org "2" "Bolt" (Some (str "Inactive"));
   org "3" "Core" (Some (str "Prospect"))].

Definition orgs_with_null : list resource :=
  [org "1" "Acme" (Some (str "Active")); org "2" "Bolt" None].

Definition some_configs : list resource :=
  [config "10" "FW-01" (Some (str "Firewall Server"));
   config "11" "Sophos Central" (Some (str "Security Software"));
   config "12" "Printer" (Some (str "Peripheral"))].

(** A service that lists the same organizations whatever is asked. *)
Definition lists (data : list resource) : Api := fun _ _ => DataList data.

End ITGlueExamples.

Module ProfileExamples.
Import ITGlue ITGlueAPI ITGlueExamples.

(** A service that answers the first request with one organization and every
    later one with three configurations. *)
Definition profile_api : Api :=
  fun sent _ =>
    match sent with
    | [] => DataOne (org "7" "Acme" (Some (str "Active")))
    | _ => DataList some_configs
    end.

Definition hipaa_configs : list resource :=
  [config "20" "HIPAA file server" (Some (str "Server"))].

Definition clinic_profile : profile :=
  {| organization := <["name" := Some (str "Acme")]>
                     (<["organization_type" := Some (str "Medical Clinic")]> ∅);
     total_configurations := 1;
     technology_stack :=
       {| endpoints := [config_item_of (config "20" "Sophos server" (Some (str "Server")))];
          network := []; security := []; cloud := []; other := [] |};
     compliance_frameworks := [str "HIPAA"] |}.

End ProfileExamples.

(** ** Vocabulary of the properties *)

Module Vocabulary.
Import App.

(** The two blocks that end every document. *)
Definition footer_blocks : list block :=
  [Paragraph None [];
   Paragraph None
     [str "This document was generated by Crimson IT's AI-powered policy generator.";
      str "
For questions or updates, contact your Crimson IT representative."]].

(** What one probe writes for its model. *)
Definition probe_result (o : outcome) : pystr :=
  match o with
  | Returns _ => str "available"
  | Raises e => str "error: " ++ e
  end.

End Vocabulary.

(** * Properties *)

Local Open Scope N_scope.

(** ** Facts about the string operations *)

Module PyFacts.
Lemma eqb_eq (s t : pystr) : eqb s t = true <-> s = t.
Proof.
  revert t. induction s as [|a s IH]; intros [|b t]; simpl; split; try congruence.
  - intros [Hab Hst]%andb_true_iff. apply N.eqb_eq in Hab. apply IH in Hst. congruence.
  - intros [= -> ->]. rewrite N.eqb_refl. simpl. now apply IH.
Qed.

Lemma eqb_refl (s : pystr) : eqb s s = true.
Proof. now apply eqb_eq. Qed.

Lemma startswith_app (p r : pystr) : startswith (p ++ r) p = true.
Proof. induction p as [|a p IH]; simpl; [reflexivity|]. now rewrite N.eqb_refl. Qed.

Lemma startswith_inv (s p : pystr) :
  startswith s p = true -> s = p ++ drop (length p) s.
Proof.
  revert s. induction p as [|a p IH]; intros s; simpl; [now rewrite drop_0|].
  destruct s as [|b s]; [discriminate|].
  intros [Hab Hs]%andb_true_iff. apply N.eqb_eq in Hab. subst b.
  simpl. f_equal. now apply IH.
Qed.

Lemma contains_false_startswith (sub s : pystr) :
  contains sub s = false -> startswith s sub = false.
Proof. destruct s; simpl; intros Hc; apply orb_false_iff in Hc; tauto. Qed.

(** *** [strip] *)

Lemma lstrip_by_suffix f s : exists pre, s = pre ++ lstrip_by f s.
Proof.
  induction s as [|c s [pre IH]]; simpl.
  - now exists [].
  - destruct (f c).
    + exists (c :: pre). simpl. now f_equal.
    + now exists [].
Qed.

Lemma lstrip_by_starts_ok f s : starts_ok f (lstrip_by f s) = true.
Proof.
  induction s as [|c s IH]; simpl; [reflexivity|].
  destruct (f c) eqn:E; [assumption|]. simpl. now rewrite E.
Qed.

Lemma lstrip_by_fix f s : starts_ok f s = true -> lstrip_by f s = s.
Proof. destruct s as [|c s]; simpl; [reflexivity|]. now destruct (f c). Qed.

Lemma rstrip_by_prefix f s : exists post, s = rstrip_by f s ++ post.
Proof.
  induction s as [|c s [post IH]]; simpl.
  - now exists [].
  - destruct (rstrip_by f s) as [|d r] eqn:E.
    + destruct (f c).
      * exists (c :: s). reflexivity.
      * exists post. simpl in *. now f_equal.
    + exists post. simpl in *. now f_equal.
Qed.

Lemma last_cons_cons {A} (a b : A) l : last (a :: b :: l) = last (b :: l).
Proof. reflexivity. Qed.

Lemma rstrip_by_ends_ok f s : ends_ok f (rstrip_by f s) = true.
Proof.
  unfold ends_ok. induction s as [|c s IH]; simpl; [reflexivity|].
  destruct (rstrip_by f s) as [|d r] eqn:E.
  - destruct (f c) eqn:Ec; simpl; [reflexivity|now rewrite Ec].
  - now rewrite last_cons_cons.
Qed.

Lemma rstrip_by_fix f s : ends_ok f s = true -> rstrip_by f s = s.
Proof.
  unfold ends_ok. induction s as [|c s IH]; simpl; [reflexivity|].
  destruct s as [|d s].
  - simpl. intros Hc. now destruct (f c).
  - rewrite last_cons_cons. intros Hl. rewrite (IH Hl). reflexivity.
Qed.

Lemma ends_ok_suffix f (pre t : pystr) :
  ends_ok f (pre ++ t) = true -> ends_ok f t = true.
Proof.
  unfold ends_ok. destruct t as [|c t]; [reflexivity|].
  now rewrite last_app_cons.
Qed.

Lemma strip_ends_ok s : ends_ok isspace (strip s) = true.
Proof.
  unfold strip. destruct (lstrip_by_suffix isspace (rstrip_by isspace s)) as [pre E].
  apply (ends_ok_suffix _ pre). rewrite <- E. apply rstrip_by_ends_ok.
Qed.

Lemma strip_starts_ok s : starts_ok isspace (strip s) = true.
Proof. apply lstrip_by_starts_ok. Qed.

Lemma strip_fix s :
  starts_ok isspace s = true -> ends_ok isspace s = true -> strip s = s.
Proof. intros Hs He. unfold strip. rewrite (rstrip_by_fix _ _ He). now apply lstrip_by_fix. Qed.

Lemma strip_idem s : strip (strip s) = strip s.
Proof. apply strip_fix; [apply strip_starts_ok | apply strip_ends_ok]. Qed.

(** [strip s] is a contiguous piece of [s]. *)
Lemma strip_infix s : exists pre post, s = pre ++ strip s ++ post.
Proof.
  unfold strip. destruct (rstrip_by_prefix isspace s) as [post E].
  destruct (lstrip_by_suffix isspace (rstrip_by isspace s)) as [pre E'].
  exists pre, post. rewrite app_assoc, <- E'. exact E.
Qed.

Lemma strip_nil : strip [] = [].
Proof. reflexivity. Qed.

(** *** [split] and [join] *)

Lemma split_not_nil s c : split s c <> [].
Proof.
  destruct s as [|x s]; simpl; [discriminate|].
  destruct (x =? c); [discriminate|]. destruct (split s c); discriminate.
Qed.

Lemma split_cons_other x s c :
  (x =? c) = false ->
  exists l ls, split s c = l :: ls /\ split (x :: s) c = (x :: l) :: ls.
Proof.
  intros E. simpl. rewrite E. destruct (split s c) as [|l ls] eqn:Es.
  - now destruct (split_not_nil s c).
  - now exists l, ls.
Qed.

Lemma split_app_line (l : pystr) c (s : pystr) :
  Forall (fun x => x <> c) l ->
  split (l ++ c :: s) c = l :: split s c.
Proof.
  induction 1 as [|x l Hx Hl IH]; simpl.
  - now rewrite N.eqb_refl.
  - apply N.eqb_neq in Hx. rewrite Hx, IH. reflexivity.
Qed.

Lemma split_line (l : pystr) c :
  Forall (fun x => x <> c) l -> split l c = [l].
Proof.
  induction 1 as [|x l Hx Hl IH]; simpl; [reflexivity|].
  apply N.eqb_neq in Hx. now rewrite Hx, IH.
Qed.

(** Splitting what was joined gives the parts back, when there is at least
    one part and no part holds the separator. *)
Lemma split_join c (ls : list pystr) :
  ls <> [] -> Forall (Forall (fun x => x <> c)) ls ->
  split (join [c] ls) c = ls.
Proof.
  induction ls as [|l ls IH]; [congruence|].
  intros _ Hall. inversion Hall as [|? ? Hl Hls]; subst.
  destruct ls as [|l' ls'].
  - simpl. now apply split_line.
  - change (join [c] (l :: l' :: ls')) with (l ++ c :: join [c] (l' :: ls')).
    rewrite split_app_line by assumption. f_equal. now apply IH.
Qed.

Lemma join_split c (s : pystr) : join [c] (split s c) = s.
Proof.
  induction s as [|x s IH]; [reflexivity|].
  simpl. destruct (x =? c) eqn:E.
  - apply N.eqb_eq in E. subst x.
    destruct (split s c) as [|l ls] eqn:Es; [now destruct (split_not_nil s c)|].
    change (join [c] ([] :: l :: ls)) with (c :: join [c] (l :: ls)). now rewrite IH.
  - destruct (split s c) as [|l ls] eqn:Es; [now destruct (split_not_nil s c)|].
    destruct ls as [|l' ls']; simpl in *; now rewrite <- IH.
Qed.

Lemma split_no_sep c (s : pystr) : Forall (Forall (fun x => x <> c)) (split s c).
Proof.
  induction s as [|x s IH]; simpl.
  - repeat constructor.
  - destruct (x =? c) eqn:E.
    + constructor; [constructor | assumption].
    + destruct (split s c) as [|l ls]; [repeat constructor; now apply N.eqb_neq|].
      inversion IH; subst. constructor; [|assumption].
      constructor; [now apply N.eqb_neq | assumption].
Qed.

(** The characters of a joined text come from the parts or the separator. *)
Lemma in_join x sep (ls : list pystr) :
  In x (join sep ls) -> In x sep \/ exists l, In l ls /\ In x l.
Proof.
  induction ls as [|l ls IH]; simpl; [tauto|].
  destruct ls as [|l' ls'].
  - intros Hx. right. exists l. tauto.
  - intros Hx. apply in_app_or in Hx as [Hx|Hx]; [right; exists l; tauto|].
    apply in_app_or in Hx as [Hx|Hx]; [tauto|].
    destruct (IH Hx) as [?|[l0 [? ?]]]; [tauto|]. right. exists l0. tauto.
Qed.

Lemma in_split x c (s l : pystr) : In l (split s c) -> In x l -> In x s.
Proof.
  revert l. induction s as [|y s IH]; simpl; intros l.
  - intros [<-|[]] [].
  - destruct (y =? c).
    + intros [<-|Hl]; [intros []|]. intros Hx. right. now apply (IH l).
    + destruct (split s c) as [|l0 ls]; simpl.
      * intros [<-|[]] [->|[]]. now left.
      * intros [<-|Hl].
        -- intros [->|Hx]; [now left|]. right. apply (IH l0); [now left|assumption].
        -- intros Hx. right. apply (IH l); [now right|assumption].
Qed.

Lemma in_strip x s : In x (strip s) -> In x s.
Proof.
  destruct (strip_infix s) as [pre [post E]]. intros Hx. rewrite E.
  apply in_or_app. right. apply in_or_app. now left.
Qed.

(** *** [replace] *)

(** Replacing one character by one character is a map. *)
Lemma replace_char (s : pystr) (a b : codepoint) :
  replace s [a] [b] = map (fun x => if x =? a then b else x) s.
Proof.
  unfold replace. induction s as [|x s IH]; [reflexivity|].
  simpl. rewrite (N.eqb_sym a x). destruct (x =? a); simpl; now rewrite IH.
Qed.

(** Without an occurrence, nothing is replaced. *)
Lemma replace_absent (s old new : pystr) :
  old <> [] -> contains old s = false -> replace s old new = s.
Proof.
  intros Hold. destruct old as [|o old]; [congruence|]. unfold replace.
  induction s as [|x s IH]; [reflexivity|].
  intros Hc. cbn [replace_from].
  rewrite (contains_false_startswith _ _ Hc).
  simpl in Hc. apply orb_false_iff in Hc as [_ Hc]. now rewrite IH.
Qed.


(** What is left after a replacement by the empty string was there before. *)
Lemma in_replace_from_nil x k (s old : pystr) :
  In x (replace_from k s old []) -> In x s.
Proof.
  revert k. induction s as [|y s IH]; intros k; simpl; [tauto|].
  destruct k.
  - destruct (startswith (y :: s) old); simpl.
    + intros Hx. right. eapply IH, Hx.
    + intros [->|Hx]; [now left|]. right. eapply IH, Hx.
  - intros Hx. right. eapply IH, Hx.
Qed.

(** *** The bold marker: two adjacent asterisks *)

Lemma star2_str : str "**" = star2.
Proof. reflexivity. Qed.

(** The three shapes of a string for the scan that removes the marker. *)
Lemma star2_cases (s : pystr) :
  s = [] \/ (exists t, s = 42 :: 42 :: t)
  \/ (exists c t, s = c :: t /\ startswith s star2 = false).
Proof.
  destruct s as [|c t]; [now left|]. right.
  destruct (startswith (c :: t) star2) eqn:E; [left|right; now exists c, t].
  destruct t as [|d t]; unfold star2 in E; cbn [startswith] in E.
  - now rewrite andb_false_r in E.
  - apply andb_true_iff in E as [E1 E2]. rewrite andb_true_r in E2.
    apply N.eqb_eq in E1, E2. subst. now exists t.
Qed.

Lemma remove_star2_hit (t : pystr) :
  replace (42 :: 42 :: t) star2 [] = replace t star2 [].
Proof. reflexivity. Qed.

Lemma remove_star2_miss c (t : pystr) :
  startswith (c :: t) star2 = false ->
  replace (c :: t) star2 [] = c :: replace t star2 [].
Proof. unfold replace, star2. cbn [replace_from]. now intros ->. Qed.

Lemma startswith_star2 (s : pystr) :
  startswith s star2 = true <-> exists t, s = 42 :: 42 :: t.
Proof.
  split.
  - intros E. apply startswith_inv in E. simpl in E. eexists. exact E.
  - intros [t ->]. reflexivity.
Qed.

(** The result of the removal begins with an asterisk only if the input
    did. *)
Lemma remove_star2_head (s r : pystr) :
  replace s star2 [] = 42 :: r -> exists t, s = 42 :: t.
Proof.
  destruct (star2_cases s) as [->|[[t ->]|[c [t [-> Hm]]]]].
  - discriminate.
  - now eexists.
  - rewrite remove_star2_miss by assumption. intros [= -> _]. now eexists.
Qed.

(** After the removal no marker is left. *)
Lemma remove_star2_clean (s : pystr) :
  contains star2 (replace s star2 []) = false.
Proof.
  remember (length s) as n eqn:Hn. revert s Hn.
  induction n as [n IH] using lt_wf_ind. intros s Hn.
  destruct (star2_cases s) as [->|[[t ->]|[c [t [-> Hm]]]]].
  - reflexivity.
  - rewrite remove_star2_hit. apply (IH (length t)); [simpl in Hn; lia|reflexivity].
  - rewrite remove_star2_miss by assumption.
    cbn [contains]. rewrite (IH (length t)) by (simpl in Hn; lia || reflexivity).
    rewrite orb_false_r.
    destruct (startswith (c :: replace t star2 []) star2) eqn:E; [|reflexivity].
    apply startswith_star2 in E as [r E]. injection E as -> E.
    apply remove_star2_head in E as [t' ->]. discriminate.
Qed.

(** Across a separator that is no asterisk, a marker lies within a part. *)
Lemma contains_star2_sep (x y : pystr) (c : codepoint) :
  c <> 42 ->
  contains star2 (x ++ c :: y) = contains star2 x || contains star2 y.
Proof.
  intros Hc. apply N.eqb_neq in Hc. rewrite N.eqb_sym in Hc.
  unfold star2. induction x as [|a x IH].
  - cbn [app contains startswith]. now rewrite Hc.
  - cbn [app contains]. rewrite IH, orb_assoc. f_equal. f_equal.
    destruct x as [|b x]; cbn [app startswith].
    + rewrite Hc. reflexivity.
    + reflexivity.
Qed.

Lemma contains_star2_join (ls : list pystr) (c : codepoint) :
  c <> 42 ->
  contains star2 (join [c] ls) = existsb (contains star2) ls.
Proof.
  intros Hc. induction ls as [|l ls IH]; [reflexivity|].
  destruct ls as [|l' ls'].
  - simpl. now rewrite orb_false_r.
  - change (join [c] (l :: l' :: ls')) with (l ++ c :: join [c] (l' :: ls')).
    rewrite contains_star2_sep by assumption. now rewrite IH.
Qed.

(** A contiguous piece of a string without marker has none. *)
Lemma contains_app_r (p x y : pystr) :
  contains p (x ++ y) = false -> contains p y = false.
Proof.
  induction x as [|a x IH]; [trivial|].
  cbn [app contains]. intros Hc. apply orb_false_iff in Hc as [_ Hc]. now apply IH.
Qed.

Lemma startswith_app_l (x y p : pystr) :
  startswith x p = true -> startswith (x ++ y) p = true.
Proof.
  revert x. induction p as [|a p IH]; intros x; [reflexivity|].
  destruct x as [|b x]; simpl; [discriminate|].
  intros [-> Hs]%andb_true_iff. now rewrite IH.
Qed.

Lemma contains_app_l (p x y : pystr) :
  contains p (x ++ y) = false -> contains p x = false.
Proof.
  induction x as [|a x IH].
  - intros Hc. simpl. rewrite orb_false_r.
    destruct (startswith [] p) eqn:E; [|reflexivity].
    apply contains_false_startswith in Hc. simpl in Hc.
    apply (startswith_app_l [] y) in E. simpl in E. congruence.
  - cbn [app contains]. intros Hc. apply orb_false_iff in Hc as [Hs Hc].
    rewrite (IH Hc), orb_false_r.
    destruct (startswith (a :: x) p) eqn:E; [|reflexivity].
    apply (startswith_app_l _ y) in E. simpl in E. congruence.
Qed.

Lemma contains_strip (p s : pystr) :
  contains p s = false -> contains p (strip s) = false.
Proof.
  destruct (strip_infix s) as [pre [post E]]. intros Hc. rewrite E in Hc.
  apply contains_app_r in Hc. now apply contains_app_l in Hc.
Qed.

(** A map that keeps asterisks apart from the other characters keeps the
    markers where they are. *)
Lemma contains_star2_map (f : codepoint -> codepoint) (s : pystr) :
  (forall x, f x = 42 <-> x = 42) ->
  contains star2 (map f s) = contains star2 s.
Proof.
  intros Hf.
  assert (Hb : forall x, (42 =? f x) = (42 =? x)).
  { intros x. destruct (N.eqb_spec 42 x) as [<-|Hx].
    - apply N.eqb_eq. symmetry. now apply Hf.
    - apply N.eqb_neq. intros E. apply Hx. symmetry. now apply Hf. }
  unfold star2. induction s as [|a s IH]; [reflexivity|].
  cbn [map contains]. rewrite IH. f_equal.
  destruct s as [|b s]; cbn [map startswith]; rewrite ?Hb; reflexivity.
Qed.

Lemma count_cons c x s : count c (x :: s) = ((if (c =? x)%N then 1 else 0) + count c s)%nat.
Proof. unfold count. simpl. now destruct (c =? x). Qed.

Lemma count_zero c s : count c s = 0%nat <-> ~ In c s.
Proof.
  induction s as [|x s IH]; [simpl; tauto|].
  rewrite count_cons. destruct (N.eqb_spec c x) as [->|Hne]; simpl.
  - split; [discriminate|]. intros Hn. destruct Hn. now left.
  - rewrite IH. split; [intros Hn [?|?]; [congruence|tauto] | tauto].
Qed.

End PyFacts.

(** ** Facts about the clean-up *)

Module SanitizerFacts.
Import PyFacts App.
Section Tables.
Context `{CaseTables}.

Lemma clean_lines_filter (lines : list pystr) :
  clean_lines lines = List.filter keeps (map strip lines).
Proof.
  induction lines as [|line rest IH]; [reflexivity|].
  cbn [clean_lines map List.filter]. unfold keeps. rewrite IH.
  destruct (existsb _ chatter_phrases); [reflexivity|].
  destruct (mem (strip line) artifacts); [reflexivity|].
  destruct (startswith _ _ && contains _ _); [reflexivity|].
  destruct (truthy (strip line)); reflexivity.
Qed.

Lemma clean_lines_fix (lines : list pystr) :
  Forall (fun l => strip l = l /\ keeps l = true) lines ->
  clean_lines lines = lines.
Proof.
  rewrite clean_lines_filter.
  induction 1 as [|l ls [Hs Hk] _ IH]; [reflexivity|].
  cbn [map List.filter]. rewrite Hs, Hk, IH. reflexivity.
Qed.

Lemma clean_lines_kept (lines : list pystr) :
  Forall (fun l => strip l = l /\ keeps l = true) (clean_lines lines).
Proof.
  rewrite clean_lines_filter. apply List.Forall_forall. intros l Hl.
  apply List.filter_In in Hl as [Hl Hk]. split; [|assumption].
  apply List.in_map_iff in Hl as [l0 [<- _]]. apply strip_idem.
Qed.

Lemma clean_lines_from (lines : list pystr) (l : pystr) :
  In l (clean_lines lines) -> exists l0, In l0 lines /\ l = strip l0.
Proof.
  rewrite clean_lines_filter. intros Hl. apply List.filter_In in Hl as [Hl _].
  apply List.in_map_iff in Hl as [l0 [<- Hl0]]. now exists l0.
Qed.

Lemma keeps_truthy (l : pystr) : keeps l = true -> l <> [].
Proof.
  unfold keeps. intros Hk. apply andb_true_iff in Hk as [_ Hk].
  now destruct l.
Qed.

(** An empty text stays empty, whatever the case tables say of [""]. *)
Lemma clean_lines_blank : clean_lines [[]] = [].
Proof.
  rewrite clean_lines_filter. cbn [map List.filter]. rewrite strip_nil.
  unfold keeps. cbn [truthy]. now rewrite andb_false_r.
Qed.

End Tables.

(** *** [normalize] *)

Lemma replace_dashes_map (s : pystr) :
  replace_dashes s = map (to_hyphen 8211) (map (to_hyphen 8212) s).
Proof.
  unfold replace_dashes.
  change (str "—") with [8212]. change (str "–") with [8211]. change (str "-") with [45].
  now rewrite !replace_char.
Qed.

Lemma standardize_bullets_map (s : pystr) :
  standardize_bullets s
  = map (to_hyphen 9642) (map (to_hyphen 9702) (map (to_hyphen 8226) s)).
Proof.
  unfold standardize_bullets.
  change (str "•") with [8226]. change (str "◦") with [9702].
  change (str "▪") with [9642]. change (str "-") with [45].
  now rewrite !replace_char.
Qed.

Lemma to_hyphen_star a x : a <> 42 -> to_hyphen a x = 42 <-> x = 42.
Proof.
  intros Ha. unfold to_hyphen. destruct (N.eqb_spec x a) as [->|Hx].
  - split; [discriminate|]. intros E. now destruct Ha.
  - tauto.
Qed.

(** None of the five characters survives: each character of the result is
    the image of an input character under the five replacements. *)
Lemma normalize_chars (s : pystr) (x : codepoint) :
  In x (normalize s) -> ~ In x glyphs.
Proof.
  unfold normalize, remove_bold. rewrite standardize_bullets_map.
  change (str "**") with star2. change (str "") with (@nil N).
  intros Hx.
  apply List.in_map_iff in Hx as [x3 [<- Hx]].
  apply List.in_map_iff in Hx as [x2 [<- Hx]].
  apply List.in_map_iff in Hx as [x1 [<- Hx]].
  apply in_replace_from_nil in Hx. rewrite replace_dashes_map in Hx.
  apply List.in_map_iff in Hx as [y2 [<- Hx]].
  apply List.in_map_iff in Hx as [y1 [<- _]].
  unfold to_hyphen, glyphs.
  repeat match goal with
  | |- context [if ?a =? ?b then _ else _] =>
    destruct (N.eqb_spec a b); try subst; try discriminate
  end;
  cbn [In]; intros Hin; repeat destruct Hin as [Hin|Hin]; try congruence;
  try discriminate; try contradiction.
Qed.

Lemma normalize_no_bold (s : pystr) : contains star2 (normalize s) = false.
Proof.
  unfold normalize, remove_bold. rewrite standardize_bullets_map.
  change (str "**") with star2. change (str "") with (@nil N).
  rewrite !contains_star2_map by (intros x; now apply to_hyphen_star).
  apply remove_star2_clean.
Qed.

(** A text without any of the five characters and without the bold marker is
    left as it is. *)
Lemma normalize_fix (s : pystr) :
  (forall x, In x s -> ~ In x glyphs) -> contains star2 s = false ->
  normalize s = s.
Proof.
  intros Hg Hb.
  assert (Hid : forall a, In a glyphs -> map (to_hyphen a) s = s).
  { intros a Ha. rewrite <- (map_id s) at 2. apply List.map_ext_in.
    intros x Hx. unfold to_hyphen. destruct (N.eqb_spec x a) as [->|]; [|reflexivity].
    now destruct (Hg a Hx). }
  unfold normalize, remove_bold. rewrite standardize_bullets_map, replace_dashes_map.
  change (str "**") with star2. change (str "") with (@nil N).
  rewrite (Hid 8212) by (cbn; tauto). rewrite (Hid 8211) by (cbn; tauto).
  rewrite (replace_absent s star2 []) by (assumption || discriminate).
  rewrite (Hid 8226) by (cbn; tauto). rewrite (Hid 9702) by (cbn; tauto).
  apply Hid. cbn; tauto.
Qed.

Lemma clash_startswith (p q r : pystr) :
  clash p q = true -> startswith (p ++ r) q = false.
Proof.
  revert q. induction p as [|a p IH]; intros [|b q]; cbn [clash app startswith];
    try discriminate.
  rewrite (N.eqb_sym b a). destruct (a =? b); cbn [negb orb andb]; [apply IH|reflexivity].
Qed.

Lemma clash_sym (p q : pystr) : clash p q = clash q p.
Proof.
  revert q. induction p as [|a p IH]; intros [|b q]; cbn [clash]; try reflexivity.
  now rewrite IH, (N.eqb_sym a b).
Qed.

(** *** The prefix loop *)

Lemma remove_prefix_none (ps : list pystr) (content : pystr) :
  existsb (startswith (strip content)) ps = false -> remove_prefix ps content = content.
Proof.
  induction ps as [|p ps IH]; [reflexivity|].
  cbn [existsb remove_prefix]. intros Hn. apply orb_false_iff in Hn as [-> Hn].
  now apply IH.
Qed.

(** First match wins: the entry [p] is used when no earlier entry matches. *)
Lemma remove_prefix_first (before after : list pystr) (p content : pystr) :
  existsb (startswith (strip content)) before = false ->
  startswith (strip content) p = true ->
  remove_prefix (before ++ p :: after) content
  = strip (drop (length p) (strip content)).
Proof.
  induction before as [|q before IH]; cbn [existsb app remove_prefix].
  - now intros _ ->.
  - intros Hn Hp. apply orb_false_iff in Hn as [-> Hn]. now apply IH.
Qed.

Lemma remove_prefix_in (ps : list pystr) (p content rest : pystr) :
  prefix_free ps = true -> In p ps -> strip content = p ++ rest ->
  remove_prefix ps content = strip rest.
Proof.
  intros Hfree Hin Hc. induction ps as [|q ps IH]; [destruct Hin|].
  cbn [prefix_free] in Hfree. apply andb_true_iff in Hfree as [Hq Hfree].
  cbn [remove_prefix]. destruct Hin as [->|Hin].
  - rewrite Hc, startswith_app, drop_app_length. reflexivity.
  - rewrite Hc at 1. rewrite clash_startswith; [now apply IH|].
    rewrite clash_sym. rewrite forallb_forall in Hq. now apply Hq.
Qed.

Lemma prefixes_free : prefix_free prefixes_to_remove = true.
Proof. vm_compute. reflexivity. Qed.

(** *** The whole clean-up *)

Section Tables.
Context `{CaseTables}.

Lemma sanitize_eq (content : pystr) :
  sanitize content
  = join [LF] (clean_lines (split (normalize (remove_prefix prefixes_to_remove content)) LF)).
Proof. reflexivity. Qed.

Lemma ends_ok_app f (pre t : pystr) :
  t <> [] -> ends_ok f t = true -> ends_ok f (pre ++ t) = true.
Proof.
  unfold ends_ok. destruct t as [|c t]; [congruence|]. now rewrite last_app_cons.
Qed.

Lemma join_not_nil c (l : pystr) ls : l <> [] -> join [c] (l :: ls) <> [].
Proof.
  destruct ls; cbn [join]; [trivial|]. destruct l; [congruence|discriminate].
Qed.

(** A text made of trimmed, non-empty lines is trimmed. *)
Lemma strip_join (ls : list pystr) :
  Forall (fun l => strip l = l /\ l <> []) ls ->
  strip (join [LF] ls) = join [LF] ls.
Proof.
  intros Hall. apply strip_fix.
  - destruct Hall as [|l ls [Hs Hne] _]; [reflexivity|].
    assert (Hok : starts_ok isspace l = true) by (rewrite <- Hs; apply strip_starts_ok).
    destruct l as [|c l]; [congruence|]. now destruct ls.
  - induction Hall as [|l ls [Hs Hne] Hall IH]; [reflexivity|].
    destruct ls as [|l' ls'].
    + cbn [join]. rewrite <- Hs. apply strip_ends_ok.
    + change (join [LF] (l :: l' :: ls')) with (l ++ [LF] ++ join [LF] (l' :: ls')).
      rewrite app_assoc. apply ends_ok_app; [|exact IH].
      apply join_not_nil. inversion Hall as [|? ? [_ ?] _]; now subst.
Qed.

(** The lines the loop keeps, for a text [n] that went through [normalize]. *)
Lemma cleaned_lines_ok (n : pystr) :
  (forall x, In x n -> ~ In x glyphs) -> contains star2 n = false ->
  Forall (fun l => (strip l = l /\ keeps l = true)
                   /\ Forall (fun x => x <> LF) l
                   /\ (forall x, In x l -> ~ In x glyphs)
                   /\ contains star2 l = false)
         (clean_lines (split n LF)).
Proof.
  intros Hg Hb. apply List.Forall_forall. intros l Hl.
  split; [|].
  { pose proof (clean_lines_kept (split n LF)) as Hk.
    rewrite List.Forall_forall in Hk. now apply Hk. }
  apply clean_lines_from in Hl as [l0 [Hl0 ->]].
  repeat split.
  - pose proof (split_no_sep LF n) as Hs. rewrite List.Forall_forall in Hs.
    specialize (Hs l0 Hl0). rewrite List.Forall_forall in Hs.
    apply List.Forall_forall. intros x Hx. apply Hs. now apply in_strip.
  - intros x Hx. apply Hg. apply (in_split x LF n l0 Hl0). now apply in_strip.
  - apply contains_strip.
    rewrite <- (join_split LF n), contains_star2_join in Hb by discriminate.
    destruct (contains star2 l0) eqn:E; [|reflexivity].
    assert (existsb (contains star2) (split n LF) = true); [|congruence].
    apply existsb_exists. now exists l0.
Qed.

(** Running the steps after the prefix loop on a clean-up result changes
    nothing. *)
Lemma sanitize_tail_fix (content : pystr) :
  join [LF] (clean_lines (split (normalize (sanitize content)) LF)) = sanitize content.
Proof.
  rewrite (sanitize_eq content) at 2.
  set (n := normalize (remove_prefix prefixes_to_remove content)).
  pose proof (cleaned_lines_ok n (normalize_chars _) (normalize_no_bold _)) as Hok.
  rewrite sanitize_eq. fold n.
  set (cl := clean_lines (split n LF)) in *.
  assert (Hfix : normalize (join [LF] cl) = join [LF] cl).
  { apply normalize_fix.
    - intros x Hx. apply in_join in Hx as [Hx|[l [Hl Hx]]].
      + destruct Hx as [<-|[]]. vm_compute. intuition discriminate.
      + rewrite List.Forall_forall in Hok. now apply (Hok l Hl).
    - rewrite contains_star2_join by discriminate.
      destruct (existsb (contains star2) cl) eqn:E; [|reflexivity].
      apply existsb_exists in E as [l [Hl E]].
      rewrite List.Forall_forall in Hok. destruct (Hok l Hl) as (_ & _ & _ & Hb). congruence. }
  rewrite Hfix. destruct cl as [|l cl'] eqn:Ecl.
  - cbn [join split]. now rewrite clean_lines_blank.
  - rewrite <- Ecl in *. f_equal. rewrite split_join.
    + apply clean_lines_fix. eapply List.Forall_impl; [|exact Hok]. cbn. tauto.
    + rewrite Ecl. discriminate.
    + eapply List.Forall_impl; [|exact Hok]. cbn. tauto.
Qed.

(** Between lines that are not empty and hold no line feed, the joined text
    has no two line feeds in a row. *)
Lemma no_double_sep_app (l t : pystr) :
  Forall (fun x => x <> LF) l -> startswith t [LF] = false ->
  contains [LF; LF] t = false -> contains [LF; LF] (l ++ LF :: t) = false.
Proof.
  intros Hl Ht Hc. induction Hl as [|x l Hx _ IH].
  - change (contains [LF; LF] ([] ++ LF :: t))
      with (((LF =? LF) && startswith t [LF]) || contains [LF; LF] t).
    rewrite Ht, Hc. now rewrite andb_false_r.
  - change (contains [LF; LF] ((x :: l) ++ LF :: t))
      with (((LF =? x) && startswith (l ++ LF :: t) [LF])
            || contains [LF; LF] (l ++ LF :: t)).
    rewrite IH. apply N.eqb_neq in Hx. rewrite N.eqb_sym in Hx. now rewrite Hx.
Qed.

Lemma no_double_sep_line (l : pystr) :
  Forall (fun x => x <> LF) l -> contains [LF; LF] l = false.
Proof.
  induction 1 as [|x l Hx _ IH]; [reflexivity|].
  change (contains [LF; LF] (x :: l))
    with (((LF =? x) && startswith l [LF]) || contains [LF; LF] l).
  rewrite IH. apply N.eqb_neq in Hx. rewrite N.eqb_sym in Hx. now rewrite Hx.
Qed.

Lemma no_double_sep_join (ls : list pystr) :
  Forall (fun l => l <> [] /\ Forall (fun x => x <> LF) l) ls ->
  contains [LF; LF] (join [LF] ls) = false.
Proof.
  induction 1 as [|l ls [Hne Hl] Hall IH]; [reflexivity|].
  destruct ls as [|l' ls'].
  - cbn [join]. now apply no_double_sep_line.
  - change (join [LF] (l :: l' :: ls')) with (l ++ LF :: join [LF] (l' :: ls')).
    apply no_double_sep_app; [assumption| |exact IH].
    inversion Hall as [|? ? [Hne' Hl'] _]; subst.
    destruct l' as [|c l']; [congruence|].
    inversion Hl' as [|? ? Hc _]; subst.
    assert (E : exists t, join [LF] ((c :: l') :: ls') = c :: t)
      by (destruct ls'; cbn [join app]; eauto).
    destruct E as [t ->].
    change (startswith (c :: t) [LF]) with ((LF =? c) && startswith t []).
    apply N.eqb_neq in Hc. rewrite N.eqb_sym in Hc. now rewrite Hc.
Qed.

Lemma sanitize_stripped (content : pystr) : strip (sanitize content) = sanitize content.
Proof.
  rewrite sanitize_eq. apply strip_join.
  eapply List.Forall_impl; [|apply clean_lines_kept].
  cbn. intros l [Hs Hk]. split; [assumption|now apply keeps_truthy].
Qed.

End Tables.

End SanitizerFacts.

(** ** The content sanitizer *)

Module SanitizerSpec.
Import PyFacts SanitizerFacts App Examples.
Lemma prefix_free_clash (ps : list pystr) (p q : pystr) :
  prefix_free ps = true -> In p ps -> In q ps -> p <> q -> clash p q = true.
Proof.
  induction ps as [|r ps IH]; [intros _ []|].
  cbn [prefix_free]. intros [Hr Hfree]%andb_true_iff Hp Hq Hne.
  rewrite forallb_forall in Hr.
  destruct Hp as [->|Hp], Hq as [->|Hq].
  - congruence.
  - now apply Hr.
  - rewrite clash_sym. now apply Hr.
  - now apply IH.
Qed.

Lemma count_to_hyphen (a : codepoint) (s : pystr) :
  a <> 45 -> count 45 (map (to_hyphen a) s) = (count 45 s + count a s)%nat.
Proof.
  intros Ha. induction s as [|x s IH]; [reflexivity|].
  cbn [map]. rewrite !count_cons, IH. unfold to_hyphen.
  destruct (N.eqb_spec x a) as [->|Hx].
  - rewrite !N.eqb_refl. rewrite (proj2 (N.eqb_neq 45 a)) by congruence. lia.
  - rewrite (proj2 (N.eqb_neq a x)) by congruence. lia.
Qed.

Lemma count_to_hyphen_other (a c : codepoint) (s : pystr) :
  c <> 45 -> c <> a -> count c (map (to_hyphen a) s) = count c s.
Proof.
  intros Hc Ha. induction s as [|x s IH]; [reflexivity|].
  cbn [map]. rewrite !count_cons, IH. unfold to_hyphen.
  destruct (N.eqb_spec x a) as [->|Hx]; [|reflexivity].
  rewrite (proj2 (N.eqb_neq c 45)), (proj2 (N.eqb_neq c a)) by congruence. reflexivity.
Qed.

(** C5. When the trimmed text begins with an enumerated prefix [p], the
    prefix loop returns the trimmed remainder: exactly that one prefix is cut
    from the very start, the rest is only trimmed, and [p] is the one entry of
    the list that matches (comparison is exact, character by character), so a
    remainder that begins with another entry keeps it. *)
Theorem remove_prefix_exactly_one (content p rest : pystr) :
  In p prefixes_to_remove -> strip content = p ++ rest ->
  remove_prefix prefixes_to_remove content = strip rest
  /\ (forall q, In q prefixes_to_remove ->
                startswith (strip content) q = true -> q = p).
Proof.
  intros Hin Hc. split.
  - now apply (remove_prefix_in _ p).
  - intros q Hq Hs. destruct (decide (q = p)) as [|Hne]; [assumption|].
    rewrite Hc, clash_startswith in Hs; [discriminate|].
    apply (prefix_free_clash prefixes_to_remove); auto using prefixes_free.
Qed.

Lemma remove_prefix_exactly_one_witness :
  remove_prefix prefixes_to_remove (str "  Sure! Here is the plan ")
  = str "Here is the plan".
Proof.
  apply (remove_prefix_exactly_one (str "  Sure! Here is the plan ")
           (str "Sure!") (str " Here is the plan")).
  - vm_compute. tauto.
  - vm_compute. reflexivity.
Defined.

(** C3 (as amended). Cleaning a cleaned text again changes nothing, provided
    the cleaned text does not itself begin with an enumerated prefix. *)
Theorem sanitize_idempotent_without_prefix `{CaseTables} (s : pystr) :
  existsb (startswith (sanitize s)) prefixes_to_remove = false ->
  sanitize (sanitize s) = sanitize s.
Proof.
  intros Hp. rewrite (sanitize_eq (sanitize s)).
  rewrite remove_prefix_none by now rewrite sanitize_stripped.
  apply sanitize_tail_fix.
Qed.

Lemma sanitize_idempotent_without_prefix_witness :
  @sanitize basic_latin (@sanitize basic_latin chatty_answer)
  = @sanitize basic_latin chatty_answer.
Proof.
  apply (@sanitize_idempotent_without_prefix basic_latin chatty_answer).
  vm_compute. reflexivity.
Defined.

(** C3 (as stated) fails: the second pass removes a second prefix. *)
Lemma sanitize_not_idempotent :
  @sanitize basic_latin (@sanitize basic_latin (str "Sure!Sure!x"))
  <> @sanitize basic_latin (str "Sure!Sure!x").
Proof. vm_compute. discriminate. Qed.

(** C4 (as amended). The cleaned text holds no em dash and no en dash; the
    dash replacement itself raises the number of hyphens by exactly the
    number of em and en dashes of its input. *)
Theorem dashes_replaced `{CaseTables} (raw : pystr) :
  ~ In (ord "—") (sanitize raw) /\ ~ In (ord "–") (sanitize raw)
  /\ count (ord "-") (replace_dashes raw)
     = (count (ord "-") raw + count (ord "—") raw + count (ord "–") raw)%nat.
Proof.
  assert (Hno : forall x, In x (sanitize raw) -> ~ In x glyphs).
  { intros x Hx. rewrite sanitize_eq in Hx.
    apply in_join in Hx as [[<-|[]]|[l [Hl Hx]]].
    - vm_compute. intuition discriminate.
    - apply clean_lines_from in Hl as [l0 [Hl0 ->]].
      apply (normalize_chars (remove_prefix prefixes_to_remove raw)).
      apply (in_split x LF _ l0 Hl0). now apply in_strip. }
  split; [|split].
  - intros Hx. apply (Hno _ Hx). vm_compute. tauto.
  - intros Hx. apply (Hno _ Hx). vm_compute. tauto.
  - rewrite replace_dashes_map.
    change (ord "-") with 45. change (ord "—") with 8212. change (ord "–") with 8211.
    rewrite count_to_hyphen by discriminate.
    rewrite count_to_hyphen by discriminate.
    rewrite count_to_hyphen_other by discriminate. lia.
Qed.

(** C4 (as stated) fails: a bullet glyph becomes a hyphen too. *)
Lemma hyphen_count_off :
  count (ord "-") (@sanitize basic_latin dash_and_bullet)
  <> (count (ord "-") dash_and_bullet
      + (count (ord "—") dash_and_bullet + count (ord "–") dash_and_bullet))%nat.
Proof. vm_compute. discriminate. Qed.

(** C10. The cleaned text is empty, or none of its lines is empty; no line
    begins or ends with whitespace; its lines are the trimmed lines of the
    normalized text that pass the tests of the loop, so every empty line is
    gone; and the text as a whole holds no two line feeds in a row and neither
    begins nor ends with one. *)
Theorem sanitize_no_blank_lines `{CaseTables} (raw : pystr) :
  (sanitize raw = [] \/ Forall (fun l => l <> []) (split (sanitize raw) LF))
  /\ Forall (fun l => strip l = l
                      /\ (forall c, head l = Some c -> isspace c = false)
                      /\ (forall c, last l = Some c -> isspace c = false))
            (split (sanitize raw) LF)
  /\ (sanitize raw = [] \/
      split (sanitize raw) LF
      = List.filter keeps
          (map strip (split (normalize (remove_prefix prefixes_to_remove raw)) LF)))
  /\ contains [LF; LF] (sanitize raw) = false
  /\ strip (sanitize raw) = sanitize raw.
Proof.
  assert (Hends : contains [LF; LF] (sanitize raw) = false
                  /\ strip (sanitize raw) = sanitize raw).
  { split; [|apply sanitize_stripped]. rewrite sanitize_eq.
    apply no_double_sep_join.
    eapply List.Forall_impl;
      [|exact (cleaned_lines_ok _ (normalize_chars _) (normalize_no_bold _))].
    cbn. intros a [[_ Hk] [Hlf _]]. split; [now apply keeps_truthy|assumption]. }
  destruct Hends as [Hdouble Hstrip]. rewrite sanitize_eq in *.
  set (n := normalize (remove_prefix prefixes_to_remove raw)) in *.
  pose proof (cleaned_lines_ok n (normalize_chars _) (normalize_no_bold _)) as Hok.
  rewrite <- clean_lines_filter.
  destruct (clean_lines (split n LF)) as [|l cl] eqn:Ecl.
  - repeat split; try (now left); try assumption.
    cbn [join split]. repeat constructor; discriminate.
  - rewrite <- Ecl in *. rewrite split_join.
    + repeat split; try assumption; [right| |now right].
      * eapply List.Forall_impl; [|exact Hok]. cbn. intros a [[_ Hk] _].
        now apply keeps_truthy.
      * eapply List.Forall_impl; [|exact Hok]. cbn. intros a [[Hs _] _].
        split; [assumption|]. split; intros c Hc.
        -- pose proof (strip_starts_ok a) as Hb. rewrite Hs in Hb.
           destruct a; [discriminate|]. injection Hc as ->.
           now apply negb_true_iff in Hb.
        -- pose proof (strip_ends_ok a) as He. rewrite Hs in He.
           unfold ends_ok in He. rewrite Hc in He. now apply negb_true_iff in He.
    + rewrite Ecl. discriminate.
    + eapply List.Forall_impl; [|exact Hok]. cbn. tauto.
Qed.

End SanitizerSpec.

(** ** Facts about the rendering loop *)

Module RenderFacts.
Import PyFacts App.
Section Tables.
Context `{CaseTables}.

Lemma render_line_plain (doc : document) (cp : option nat) (line : pystr) :
  plain line = true ->
  render_line (doc, cp) line =
  (let '(doc, p) :=
     match cp with
     | None => (add_paragraph doc [] None, length doc)
     | Some p => (doc, p)
     end in
   let doc := if truthy (text_at doc p) then alter (add_run (str " ")) p doc else doc in
   (alter (add_run (strip line)) p doc, Some p)).
Proof.
  unfold plain, structural. intros [Ht Hs]%andb_true_iff.
  apply negb_true_iff in Hs.
  repeat (apply orb_false_iff in Hs as [Hs ?]).
  unfold render_line. cbv zeta. rewrite Ht. cbn [negb].
  repeat match goal with
  | Hx : ?c = false |- context [if ?c then _ else _] => rewrite Hx
  end.
  reflexivity.
Qed.

(** A line that is not plain appends at most one block, closes the open
    paragraph, and leaves every block already in the document as it is. *)
Lemma render_line_closes (doc : document) (cp : option nat) (line : pystr) :
  plain line = false ->
  exists new, render_line (doc, cp) line = (doc ++ new, None)
              /\ (length new <= 1)%nat.
Proof.
  unfold plain, structural, render_line. cbv zeta. intros Hp.
  destruct (truthy (strip line)); cbn [negb andb] in *.
  2:{ destruct cp; [eexists; split; [reflexivity|cbn; lia]|].
      exists []. rewrite app_nil_r. split; [reflexivity|cbn; lia]. }
  apply negb_false_iff in Hp.
  unfold add_heading, add_paragraph.
  destruct (startswith (strip line) (str "##")); [eexists; split; [reflexivity|cbn; lia]|].
  destruct (startswith (strip line) (str "#")); [eexists; split; [reflexivity|cbn; lia]|].
  destruct (endswith _ _ || _); [eexists; split; [reflexivity|cbn; lia]|].
  destruct (startswith _ (str "-") || _ || _); [eexists; split; [reflexivity|cbn; lia]|].
  destruct (existsb _ _ && _); [eexists; split; [reflexivity|cbn; lia]|].
  discriminate.
Qed.

Lemma alter_last (doc : document) (b : block) (f : block -> block) :
  alter f (length doc) (doc ++ [b]) = doc ++ [f b].
Proof.
  induction doc as [|a doc IH]; [reflexivity|]. cbn. f_equal. exact IH.
Qed.

Lemma text_at_last (doc : document) (b : block) :
  text_at (doc ++ [b]) (length doc) = block_text b.
Proof.
  unfold text_at. induction doc as [|a doc IH]; [reflexivity|exact IH].
Qed.

Lemma plain_truthy (line : pystr) : plain line = true -> strip line <> [].
Proof. unfold plain. intros [Ht _]%andb_true_iff. now destruct (strip line). Qed.

(** Plain lines after an open paragraph each add a space and their text to
    it. *)
Lemma render_plain_more (doc : document) (first : pystr) (runs : list pystr)
    (lines : list pystr) :
  first <> [] -> Forall (fun l => plain l = true) lines ->
  foldl render_line (doc ++ [Paragraph None (first :: runs)], Some (length doc)) lines
  = (doc ++ [Paragraph None
               (first :: runs ++ flat_map (fun x => [str " "; x]) (map strip lines))],
     Some (length doc)).
Proof.
  intros Hf Hall. revert runs.
  induction Hall as [|l lines Hl _ IH]; intros runs.
  - cbn. now rewrite app_nil_r.
  - cbn [foldl]. rewrite render_line_plain by assumption.
    rewrite text_at_last. cbn [block_text concat].
    destruct first as [|c first]; [congruence|]. cbn [app truthy].
    rewrite !alter_last. cbn [add_run app].
    rewrite IH. cbn [map flat_map]. rewrite <- !app_assoc. reflexivity.
Qed.

(** Consecutive plain lines give one paragraph. *)
Lemma render_plain_run (doc : document) (lines : list pystr) :
  lines <> [] -> Forall (fun l => plain l = true) lines ->
  foldl render_line (doc, None) lines
  = (doc ++ [Paragraph None (runs_of (map strip lines))], Some (length doc)).
Proof.
  intros Hne Hall. destruct Hall as [|l lines Hl Hall]; [congruence|].
  cbn [foldl]. rewrite render_line_plain by assumption.
  unfold add_paragraph. cbn [truthy].
  rewrite text_at_last. cbn [block_text concat truthy].
  rewrite alter_last. cbn [add_run app].
  rewrite (render_plain_more doc (strip l) []) by (auto using plain_truthy).
  reflexivity.
Qed.

Lemma concat_runs_of (lines : list pystr) :
  concat (runs_of lines) = join (str " ") lines.
Proof.
  destruct lines as [|l rest]; [reflexivity|]. cbn [runs_of concat].
  revert l. induction rest as [|l' rest IH]; intros l.
  - cbn. apply app_nil_r.
  - change (join (str " ") (l :: l' :: rest))
      with (l ++ str " " ++ join (str " ") (l' :: rest)).
    rewrite <- IH. cbn [flat_map app concat]. reflexivity.
Qed.

Lemma take_take_le {A} (l : list A) (n m : nat) :
  (n <= m)%nat -> take n (take m l) = take n l.
Proof. intros Hnm. rewrite take_take. f_equal. lia. Qed.

(** The loop only appends to the document it started from, and the open
    paragraph, if any, is its last block. *)
Lemma render_lines_appends (doc : document) (cp : option nat) (lines : list pystr) :
  (forall p, cp = Some p -> S p = length doc) ->
  let '(doc', cp') := foldl render_line (doc, cp) lines in
  (forall p, cp' = Some p -> S p = length doc')
  /\ (length doc <= length doc')%nat
  /\ take (length doc - 1) doc' = take (length doc - 1) doc
  /\ (cp = None -> take (length doc) doc' = doc).
Proof.
  revert doc cp. induction lines as [|l lines IH]; intros doc cp Hcp.
  - cbn. repeat split; [assumption|lia|]. intros _. apply firstn_all.
  - cbn [foldl]. destruct (plain l) eqn:Hp.
    + rewrite render_line_plain by assumption.
      destruct cp as [p|].
      * specialize (Hcp p eq_refl).
        set (d1 := if truthy (text_at doc p) then alter (add_run (str " ")) p doc else doc).
        assert (Hlen : length (alter (add_run (strip l)) p d1) = length doc).
        { subst d1. destruct (truthy _); now rewrite ?length_alter. }
        assert (Htk : take (length doc - 1) (alter (add_run (strip l)) p d1)
                      = take (length doc - 1) doc).
        { subst d1. destruct (truthy _);
            repeat rewrite take_alter_ge by lia; reflexivity. }
        specialize (IH (alter (add_run (strip l)) p d1) (Some p)).
        destruct (foldl render_line _ lines) as [doc' cp'].
        destruct IH as (H1 & H2 & H3 & _).
        { intros q [= <-]. now rewrite Hlen. }
        rewrite Hlen in *. repeat split; [assumption|lia| |discriminate].
        now rewrite H3.
      * unfold add_paragraph. cbn [truthy]. rewrite text_at_last. cbn [block_text concat truthy].
        rewrite alter_last.
        specialize (IH (doc ++ [add_run (strip l) (Paragraph None [])]) (Some (length doc))).
        destruct (foldl render_line _ lines) as [doc' cp'].
        destruct IH as (H1 & H2 & H3 & _).
        { intros q [= <-]. rewrite length_app. cbn. lia. }
        rewrite length_app in H2, H3. cbn [length] in H2, H3.
        replace (length doc + 1 - 1)%nat with (length doc) in H3 by lia.
        rewrite take_app_length in H3.
        repeat split; [assumption|lia| |now intros _].
        rewrite <- (take_take_le doc' (length doc - 1) (length doc)) by lia.
        now rewrite H3.
    + destruct (render_line_closes doc cp l Hp) as [new [-> Hnew]].
      specialize (IH (doc ++ new) None).
      destruct (foldl render_line _ lines) as [doc' cp'].
      destruct IH as (H1 & H2 & _ & H4); [discriminate|].
      specialize (H4 eq_refl). rewrite length_app in *.
      assert (Hd : take (length doc) doc' = doc).
      { rewrite <- (take_take_le doc' (length doc) (length doc + length new)) by lia.
        rewrite H4. now rewrite take_app_length. }
      repeat split; [assumption|lia| |now intros _].
      rewrite <- (take_take_le doc' (length doc - 1) (length doc)) by lia.
      now rewrite Hd.
Qed.

End Tables.

End RenderFacts.

(** ** The document renderer *)

Module RenderSpec.
Import PyFacts RenderFacts App Examples.
(** C6 (as amended). The example text gives, in line order, the heading, the
    paragraph, an empty paragraph for the blank line that closes it, the two
    bullets and the numbered item. In general: consecutive plain lines make
    one paragraph whose text is the stripped lines joined by single spaces;
    any other line closes it and appends at most one block, a blank line
    appending an empty paragraph when a paragraph is open and nothing
    otherwise; the blocks emitted for the lines read so far, apart from a
    paragraph still open, which is always the last one, are never changed by
    later lines. *)
Theorem render_order_and_merge `{CaseTables} (doc : document) (cp : option nat)
    (lines more : list pystr) (line : pystr) (p : nat) :
  fst (@render_lines basic_latin [] (split example_text LF))
  = [Heading (str "A") 1; Paragraph None [str "Some body."]; Paragraph None [];
     Paragraph (Some "List Bullet") [str "item one"];
     Paragraph (Some "List Bullet") [str "item two"];
     Paragraph (Some "List Number") [str "1. first"]]
  /\ (lines <> [] -> Forall (fun l => plain l = true) lines ->
      foldl render_line (doc, None) lines
      = (doc ++ [Paragraph None (runs_of (map strip lines))], Some (length doc))
      /\ concat (runs_of (map strip lines)) = join (str " ") (map strip lines))
  /\ (plain line = false ->
      exists new, render_line (doc, cp) line = (doc ++ new, None)
                  /\ (length new <= 1)%nat)
  /\ (strip line = [] ->
      render_line (doc, Some p) line = (doc ++ [Paragraph None []], None)
      /\ render_line (doc, None) line = (doc, None))
  /\ (take (length doc) (fst (render_lines doc lines)) = doc
      /\ forall q, snd (render_lines doc lines) = Some q ->
                   S q = length (fst (render_lines doc lines)))
  /\ (render_lines doc (lines ++ more) = foldl render_line (render_lines doc lines) more
      /\ take (length (fst (render_lines doc lines)) - 1)
              (fst (render_lines doc (lines ++ more)))
         = take (length (fst (render_lines doc lines)) - 1) (fst (render_lines doc lines))
      /\ (snd (render_lines doc lines) = None ->
          take (length (fst (render_lines doc lines)))
               (fst (render_lines doc (lines ++ more)))
          = fst (render_lines doc lines))).
Proof.
  split; [vm_compute; reflexivity|]. split; [|split; [|split; [|split]]].
  - intros Hne Hall. split; [now apply render_plain_run | apply concat_runs_of].
  - apply render_line_closes.
  - intros Hb. unfold render_line. cbv zeta. rewrite Hb. split; reflexivity.
  - unfold render_lines.
    pose proof (render_lines_appends doc None lines) as Happ.
    destruct (foldl render_line (doc, None) lines) as [doc' cp'].
    destruct Happ as (H1 & _ & _ & H4); [discriminate|]. cbn [fst snd]. auto.
  - unfold render_lines. rewrite foldl_app.
    pose proof (render_lines_appends doc None lines) as Happ.
    destruct (foldl render_line (doc, None) lines) as [doc1 cp1].
    destruct Happ as (H1 & _); [discriminate|].
    pose proof (render_lines_appends doc1 cp1 more H1) as Hmore.
    destruct (foldl render_line (doc1, cp1) more) as [doc2 cp2].
    destruct Hmore as (_ & _ & H3 & H4). cbn [fst snd]. auto.
Qed.

Lemma render_order_and_merge_witness :
  (foldl (@render_line basic_latin) ([], None)
     [str "The policy applies"; str "  to all staff. "]
   = ([] ++ [Paragraph None
               (runs_of (map strip [str "The policy applies"; str "  to all staff. "]))],
      Some 0%nat)
   /\ concat (runs_of (map strip [str "The policy applies"; str "  to all staff. "]))
      = join (str " ") (map strip [str "The policy applies"; str "  to all staff. "]))
  /\ (exists new,
        @render_line basic_latin ([Paragraph None [str "x"]], Some 0%nat)
          (str "PURPOSE AND SCOPE")
        = ([Paragraph None [str "x"]] ++ new, None) /\ (length new <= 1)%nat)
  /\ @render_line basic_latin ([Paragraph None [str "x"]], Some 0%nat) (str "  ")
     = ([Paragraph None [str "x"]] ++ [Paragraph None []], None).
Proof.
  split; [|split].
  - destruct (@render_order_and_merge basic_latin [] None
                [str "The policy applies"; str "  to all staff. "] [] [] 0%nat)
      as (_ & Hmerge & _).
    apply Hmerge; [discriminate | repeat constructor].
  - destruct (@render_order_and_merge basic_latin [Paragraph None [str "x"]]
                (Some 0%nat) [] [] (str "PURPOSE AND SCOPE") 0%nat)
      as (_ & _ & Hclose & _).
    apply Hclose. vm_compute. reflexivity.
  - destruct (@render_order_and_merge basic_latin [Paragraph None [str "x"]]
                None [] [] (str "  ") 0%nat)
      as (_ & _ & _ & Hblank & _).
    apply Hblank. vm_compute. reflexivity.
Defined.

(** C6 (as stated) fails: the blank line after the paragraph adds a block. *)
Lemma render_example_has_spacer :
  fst (@render_lines basic_latin [] (split example_text LF))
  <> [Heading (str "A") 1; Paragraph None [str "Some body."];
      Paragraph (Some "List Bullet") [str "item one"];
      Paragraph (Some "List Bullet") [str "item two"];
      Paragraph (Some "List Number") [str "1. first"]].
Proof. vm_compute. discriminate. Qed.

(** What the loop does on a bullet glyph directly followed by text, and
    on a heading whose text holds the marker character: the first letter of
    the item is lost, and every marker character of the heading is removed. *)
Theorem render_marker_slips :
  fst (@render_line basic_latin ([], None) (str "•item"))
  = [Paragraph (Some "List Bullet") [str "tem"]]
  /\ fst (@render_line basic_latin ([], None) (str "# C# notes"))
     = [Heading (str "C notes") 1]
  /\ fst (@render_line basic_latin ([], None) (str "### Scope"))
     = [Heading (str "# Scope") 2]
  /\ fst (@render_line basic_latin ([], None) (str "-item"))
     = [Paragraph (Some "List Bullet") [str "item"]].
Proof. vm_compute. repeat split; reflexivity. Qed.




Section Tables.
Context `{CaseTables}.


End Tables.



End RenderSpec.

(** ** The completion step and the endpoint *)

Module EndpointSpec.
Import PyFacts App Examples.
(** When every call raises, the loop ends with the report of the last name
    tried, and has called each name once, in order. *)
Lemma try_models_all_fail (create : Service) (prompt : pystr)
    (reason : pystr -> pystr) (names : list pystr) :
  (forall log m, In m names -> create log m prompt = Raises (reason m)) ->
  forall last_error log,
  try_models create prompt names last_error log
  = ((None,
      match last names with
      | Some m => Some (str "Model " ++ m ++ str ": " ++ reason m)
      | None => last_error
      end),
     log ++ map EvChatCompletion names).
Proof.
  induction names as [|m names IH]; intros Hfail last_error log.
  - cbn. now rewrite app_nil_r.
  - cbn [try_models]. unfold ChatCompletion_create.
    rewrite (Hfail log m) by now left.
    rewrite IH by (intros; apply Hfail; now right).
    cbn [map]. rewrite <- app_assoc. cbn [app].
    destruct names as [|m' names']; [reflexivity|].
    rewrite last_cons_cons.
    destruct (last (m' :: names')) eqn:E; [reflexivity|].
    now apply last_None in E.
Qed.

(** C1 (as amended). When every candidate fails, the completion step fails
    with a message that names the last candidate and carries its failure
    reason, and only that one; every candidate was called once, in order. *)
Theorem all_models_fail_last_error (create : Service) (prompt : pystr)
    (reason : pystr -> pystr) (names : list pystr) (m : pystr) (log : list event) :
  (forall log' x, In x (names ++ [m]) -> create log' x prompt = Raises (reason x)) ->
  complete create prompt (names ++ [m]) log
  = (inl (str "All models failed. Last error: Model " ++ m ++ str ": " ++ reason m),
     log ++ map EvChatCompletion (names ++ [m])).
Proof.
  intros Hfail. unfold complete.
  rewrite (try_models_all_fail create prompt reason) by assumption.
  rewrite last_snoc. reflexivity.
Qed.

Lemma all_models_fail_last_error_witness :
  complete two_failures [] model_names []
  = (inl (str "All models failed. Last error: Model gpt-4o: quota exceeded"),
     [EvChatCompletion (str "gpt-5-chat"); EvChatCompletion (str "gpt-4o")]).
Proof.
  apply (all_models_fail_last_error two_failures []
           (fun x => if eqb x (str "gpt-5-chat") then str "timeout" else str "quota exceeded")
           [str "gpt-5-chat"] (str "gpt-4o") []).
  intros log' x _. unfold two_failures. destruct (eqb x (str "gpt-5-chat")); reflexivity.
Defined.

(** C1 (as stated) fails: the reason of the first candidate is not in the
    message. *)
Lemma first_failure_reason_lost :
  exists msg, fst (complete two_failures [] model_names []) = inl msg
              /\ contains (str "timeout") msg = false.
Proof. eexists. split; [vm_compute; reflexivity|]. vm_compute. reflexivity. Qed.

(** C2. A payload that begins with the error prefix makes the endpoint answer
    500 with that payload and build no document, whether the payload reports
    a failure or is an answer of the model; a failure caught inside the
    generation is returned as the prefix followed by its message; an answer
    is returned as it is. *)
Theorem error_prefix_channel `{CaseTables} `{Docx} (env : Env) (create : Service) (now : Clock)
    (form form_data : gmap string pystr) (log : list event) :
  (forall policy_content log',
     missing_fields (build_form_data form) = [] ->
     generate_policy_content env create (build_form_data form) log = (policy_content, log') ->
     startswith policy_content (str "Error generating policy content:") = true ->
     generate_policy env create now form log = (Json 500 policy_content, log'))
  /\ (forall e log',
        generate_body env create form_data log = (inl e, log') ->
        generate_policy_content env create form_data log
        = (str "Error generating policy content: " ++ e, log')
        /\ startswith (str "Error generating policy content: " ++ e)
             (str "Error generating policy content:") = true)
  /\ (forall content log',
        generate_body env create form_data log = (inr content, log') ->
        generate_policy_content env create form_data log = (content, log')).
Proof.
  split; [|split].
  - intros policy_content log' Hm Hg Hs.
    unfold generate_policy, try_except, bind. cbv zeta. rewrite Hm, Hg, Hs. reflexivity.
  - intros e log' Hb. unfold generate_policy_content, try_except. rewrite Hb.
    split; [reflexivity|].
    change (str "Error generating policy content: " ++ e)
      with (str "Error generating policy content:" ++ (32 :: e)).
    apply startswith_app.
  - intros content log' Hb. unfold generate_policy_content, try_except. now rewrite Hb.
Qed.

Lemma error_prefix_channel_witness :
  (fst (@generate_body basic_latin env0 unlucky_answer (build_form_data form0) [])
   = inr (str "Error generating policy content: none so far")
   /\ @generate_policy basic_latin lxml env0 unlucky_answer now0 form0 []
      = (Json 500 (str "Error generating policy content: none so far"),
         [EvConfigure (str "key") (str "https://example.openai.azure.com");
          EvChatCompletion (str "gpt-5-chat")]))
  /\ @generate_policy_content basic_latin no_credentials unlucky_answer
       (build_form_data form0) []
     = (str "Error generating policy content: "
        ++ str "Azure OpenAI credentials not configured", []).
Proof.
  split; [split; [vm_compute; reflexivity|]|].
  - destruct (@error_prefix_channel basic_latin lxml env0 unlucky_answer now0 form0 form0 [])
      as (Hprefix & _).
    apply Hprefix.
    + vm_compute. reflexivity.
    + vm_compute. reflexivity.
    + vm_compute. reflexivity.
  - destruct (@error_prefix_channel basic_latin lxml no_credentials unlucky_answer now0 form0
                (build_form_data form0) []) as (_ & Hfail & _).
    apply Hfail. vm_compute. reflexivity.
Defined.

(** C9. When a required field of the form data is empty, the endpoint answers
    400 with a message that lists the missing fields, that field among them,
    and the log of outward actions is the one it started with: no
    configuration, no call to the service, no file. *)
Theorem missing_field_rejected `{CaseTables} `{Docx} (env : Env) (create : Service) (now : Clock)
    (form : gmap string pystr) (log : list event) (field : string) :
  In field required_fields ->
  build_form_data form !!! field = [] ->
  In field (missing_fields (build_form_data form))
  /\ generate_policy env create now form log
     = (Json 400 (str "Missing required fields: "
                  ++ join (str ", ") (map str (missing_fields (build_form_data form)))),
        log).
Proof.
  intros Hreq Hempty.
  assert (Hin : In field (missing_fields (build_form_data form))).
  { unfold missing_fields. apply List.filter_In. split; [assumption|]. now rewrite Hempty. }
  split; [assumption|].
  unfold generate_policy, try_except. cbv zeta.
  destruct (missing_fields (build_form_data form)) as [|f fs]; [destruct Hin|].
  reflexivity.
Qed.

Lemma missing_field_rejected_witness :
  In "client_name" (missing_fields (build_form_data form_no_client))
  /\ @generate_policy basic_latin lxml env0 unlucky_answer now0 form_no_client []
     = (Json 400 (str "Missing required fields: "
                  ++ join (str ", ")
                       (map str (missing_fields (build_form_data form_no_client)))),
        []).
Proof.
  apply (@missing_field_rejected basic_latin lxml env0 unlucky_answer now0 form_no_client []
           "client_name").
  - vm_compute. tauto.
  - vm_compute. reflexivity.
Defined.

(** The technology components collected from the form are never empty
    strings, and the summary built from them is never empty either: the
    check of [tech_stack] among the required fields cannot fail. *)
Lemma collect_tech_truthy (form : gmap string pystr) (fields : list string)
    (acc : list pystr) :
  Forall (fun v => truthy v = true) acc ->
  Forall (fun v => truthy v = true) (collect_tech form fields acc).
Proof.
  revert acc. induction fields as [|field rest IH]; intros acc Hacc; [assumption|].
  cbn [collect_tech].
  destruct (truthy (strip (form_get form field))) eqn:Ht; cbn [andb]; [|now apply IH].
  destruct (negb _); apply IH; [|assumption].
  apply Forall_app. split; [assumption|]. now repeat constructor.
Qed.

Lemma tech_stack_never_empty (form : gmap string pystr) :
  build_form_data form !!! "tech_stack" <> [].
Proof.
  unfold build_form_data. cbv zeta. rewrite lookup_total_insert_eq.
  pose proof (collect_tech_truthy form tech_fields [] ltac:(constructor)) as Hall.
  destruct (collect_tech form tech_fields []) as [|c cs]; [discriminate|].
  inversion Hall as [|? ? Hc _]; subst.
  destruct c as [|x c]; [discriminate|]. destruct cs; discriminate.
Qed.

(** The value of a required text field in the form data is the trimmed
    submitted value. *)
Lemma form_data_trimmed (form : gmap string pystr) (field : string) :
  In field ["client_name"; "industry"; "company_size"; "policy_type"] ->
  build_form_data form !!! field = strip (form_get form field).
Proof.
  unfold build_form_data. cbv zeta. intros Hf.
  repeat (destruct Hf as [<-|Hf];
          [rewrite ?lookup_total_insert_ne by discriminate;
           now rewrite lookup_total_insert_eq|]).
  destruct Hf.
Qed.

End EndpointSpec.

(** ** The technology mapper *)

Module MapperSpec.
Import ITGlue Examples.
(** A detection block that does not write the field looked up. *)
Ltac split_ifs :=
  repeat match goal with
  | |- context [if ?c then _ else _] => destruct c
  end.

Ltac step_over :=
  lazymatch goal with
  | |- ?blk ?t ?m !! ?f = _ =>
    transitivity (m !! f);
    [ unfold blk; split_ifs;
      rewrite ?lookup_insert_ne by first [discriminate | congruence]; reflexivity | ]
  end.

(** The detection block that writes the field: all cases of its tests. *)
Ltac step_here :=
  lazymatch goal with
  | |- ?blk ?t ?m !! ?f = _ =>
    unfold blk, has;
    repeat match goal with
    | |- context [contains ?a ?b] => destruct (contains a b)
    end;
    cbn [orb andb negb];
    rewrite ?lookup_insert_ne by discriminate;
    rewrite ?lookup_insert_eq;
    try reflexivity
  end.

Ltac start_field :=
  unfold _map_technology_stack; cbv zeta;
  unfold decided, rules_of, fallback, first_match, any_of, all_of;
  cbn [String.eqb Ascii.eqb Bool.eqb existsb forallb orb andb fmap option_fmap option_map].

Ltac field_tac := start_field; repeat first [step_over | step_here]; try apply lookup_empty.

Ltac case_field k :=
  lazymatch goal with
  | |- _ !! ?field = _ =>
    destruct (decide (field = k)) as [->|?]; [field_tac|]
  end.

Lemma rules_of_other (field : string) :
  ~ In field ["platform_choice"; "mdr_solution"; "email_security"; "siem_solution";
              "pam_solution"; "disk_encryption"; "mdm_computers"; "mdm_mobile";
              "security_training"; "phishing_tests"; "vulnerability_scans";
              "dark_web_monitoring"; "mfa_solution"; "password_manager";
              "intrusion_detection"] ->
  rules_of field = [] /\ fallback field = None.
Proof.
  intros Hn. unfold rules_of, fallback.
  repeat match goal with
  | |- context [String.eqb field ?k] =>
    destruct (String.eqb_spec field k) as [->|?]; [destruct Hn; cbn; tauto|]
  end.
  cbn [orb]. split; reflexivity.
Qed.

Section Tables.
Context `{CaseTables}.
Variable tech_stack : list (string * category).

(** Field by field, the function computes what the rule tables decide. *)
Lemma map_technology_stack_decided (field : string) :
  _map_technology_stack tech_stack !! field
  = decided field (config_text_of tech_stack).
Proof.
  case_field "platform_choice". case_field "mdr_solution".
  case_field "email_security". case_field "siem_solution".
  case_field "pam_solution". case_field "disk_encryption".
  case_field "mdm_computers". case_field "mdm_mobile".
  case_field "security_training". case_field "phishing_tests".
  case_field "vulnerability_scans". case_field "dark_web_monitoring".
  case_field "mfa_solution". case_field "password_manager".
  case_field "intrusion_detection".
  unfold decided.
  destruct (rules_of_other field) as [-> ->]; [cbn; intuition congruence|].
  unfold _map_technology_stack. cbv zeta. repeat step_over. apply lookup_empty.
Qed.

End Tables.



End MapperSpec.

(** ** Further properties of the endpoint, the health view and the IT Glue client *)

Module CompletionExtras.
Import PyFacts App Examples EndpointSpec Scenarios.

(** X1. The first candidate that answers decides: when the candidates before
    it raise and it returns, the completion step returns its response, and
    the candidates after it are not called. *)
Theorem first_success_wins (create : Service) (prompt : pystr)
    (reason : pystr -> pystr) (before after : list pystr) (m : pystr)
    (response : list (option pystr)) (log : list event) :
  (forall log' x, In x before -> create log' x prompt = Raises (reason x)) ->
  create (log ++ map EvChatCompletion before) m prompt = Returns response ->
  complete create prompt (before ++ m :: after) log
  = (inr response, log ++ map EvChatCompletion (before ++ [m])).
Proof.
  intros Hfail Hok. unfold complete.
  assert (Hloop : forall last_error l,
    (forall log' x, In x l -> create log' x prompt = Raises (reason x)) ->
    forall log0, create (log0 ++ map EvChatCompletion l) m prompt = Returns response ->
    exists e, try_models create prompt (l ++ m :: after) last_error log0
              = ((Some response, e), log0 ++ map EvChatCompletion (l ++ [m]))).
  { intros last_error l. revert last_error.
    induction l as [|x l IH]; intros last_error Hl log0 Hm.
    - cbn [app map] in *. rewrite app_nil_r in Hm.
      cbn [try_models]. unfold ChatCompletion_create. rewrite Hm. eauto.
    - cbn [app try_models]. unfold ChatCompletion_create.
      rewrite (Hl log0 x) by now left.
      destruct (IH (Some (str "Model " ++ x ++ str ": " ++ reason x))
                  (fun l' y Hy => Hl l' y (or_intror Hy))
                  (log0 ++ [EvChatCompletion x])) as [e He].
      { rewrite <- app_assoc. exact Hm. }
      rewrite He. exists e. cbn [map]. now rewrite <- app_assoc. }
  destruct (Hloop None before Hfail log Hok) as [e ->]. reflexivity.
Qed.

Lemma first_success_wins_witness :
  complete second_answers [] model_names []
  = (inr [Some (str "# Policy")],
     [] ++ map EvChatCompletion ([str "gpt-5-chat"] ++ [str "gpt-4o"])).
Proof.
  apply (first_success_wins second_answers []
           (fun _ => str "deployment not found") [str "gpt-5-chat"] [] (str "gpt-4o")).
  - intros log' x [<-|[]]. reflexivity.
  - reflexivity.
Defined.

(** The calls of the loop are the first [k] candidates, in order; all of them
    when no response came, at least one when one came. *)
Lemma try_models_calls (create : Service) (prompt : pystr) (names : list pystr) :
  forall last_error log,
  exists k, (k <= length names)%nat
    /\ snd (try_models create prompt names last_error log)
       = log ++ map EvChatCompletion (take k names)
    /\ (fst (fst (try_models create prompt names last_error log)) = None ->
        k = length names)
    /\ (fst (fst (try_models create prompt names last_error log)) <> None ->
        (1 <= k)%nat).
Proof.
  induction names as [|m names IH]; intros last_error log.
  - exists 0%nat. cbn [try_models fst snd length take map]. rewrite app_nil_r.
    split; [lia|]. split; [reflexivity|]. split; [reflexivity|congruence].
  - cbn [try_models]. unfold ChatCompletion_create.
    destruct (create log m prompt) as [msg|choices].
    + destruct (IH (Some (str "Model " ++ m ++ str ": " ++ msg))
                  (log ++ [EvChatCompletion m])) as (k & Hk & Hlog & Hnone & Hsome).
      exists (S k). cbn [length take map]. rewrite Hlog, <- app_assoc.
      split; [lia|]. split; [reflexivity|]. split; [|lia].
      intros Hn. now rewrite (Hnone Hn).
    + exists 1%nat. cbn [length take map fst snd]. rewrite take_0.
      split; [lia|]. split; [reflexivity|]. split; [discriminate|lia].
Qed.

(** X2. Whatever the service does, the completion step calls the candidates
    one after the other from the first, each at most once: its calls are the
    first [k] candidates; all of them when it fails, at least one when it
    returns a response. *)
Theorem complete_calls_a_prefix (create : Service) (prompt : pystr)
    (names : list pystr) (log : list event) :
  exists k, (k <= length names)%nat
    /\ snd (complete create prompt names log)
       = log ++ map EvChatCompletion (take k names)
    /\ match fst (complete create prompt names log) with
       | inl _ => k = length names
       | inr _ => (1 <= k)%nat
       end.
Proof.
  destruct (try_models_calls create prompt names None log) as (k & Hk & Hlog & Hn & Hs).
  exists k. unfold complete.
  destruct (try_models create prompt names None log) as [[[r|] e] log'];
    cbn [fst snd] in *.
  - split; [assumption|]. split; [assumption|]. now apply Hs.
  - split; [assumption|]. split; [assumption|]. now apply Hn.
Qed.

End CompletionExtras.

Module EndpointExtras.
Import PyFacts App Examples EndpointSpec CompletionExtras.

Lemma getitem_some (d : gmap string pystr) (k : string) (v : pystr) (log : list event) :
  d !! k = Some v -> getitem d k log = (inr v, log).
Proof. unfold getitem. now intros ->. Qed.


(** The form data holds every key the prompt and the document read. *)
Lemma form_data_keys (form : gmap string pystr) (k : string) :
  In k ["policy_type"; "client_name"; "industry"; "company_size"; "tech_stack";
        "compliance_requirements"; "additional_requirements"] ->
  is_Some (build_form_data form !! k).
Proof.
  unfold build_form_data. cbv zeta. intros Hk.
  repeat (destruct Hk as [<-|Hk];
          [rewrite ?lookup_insert_ne by discriminate;
           rewrite lookup_insert_eq; eauto|]).
  destruct Hk.
Qed.

Lemma build_prompt_form_data (form : gmap string pystr) (log : list event) :
  exists prompt, build_prompt (build_form_data form) log = (inr prompt, log).
Proof.
  unfold build_prompt, bind.
  repeat match goal with
  | |- context [getitem (build_form_data form) ?k log] =>
    let v := fresh "v" in let Hv := fresh "Hv" in
    destruct (form_data_keys form k) as [v Hv]; [cbn; tauto|];
    rewrite (getitem_some _ k v log Hv)
  end.
  eexists. reflexivity.
Qed.

Section Tables.
Context `{CaseTables}.
Context `{Docx}.

(** X3. Without credentials (a variable unset or empty) a request that passes
    validation is answered 500 with the configuration error as generation
    failure, and nothing was configured, called or saved. *)
Theorem missing_credentials_no_call (env : Env) (create : Service) (now : Clock)
    (form : gmap string pystr) (log : list event) :
  Health.present (AZURE_OPENAI_API_KEY env)
  && Health.present (AZURE_OPENAI_ENDPOINT env) = false ->
  missing_fields (build_form_data form) = [] ->
  generate_policy env create now form log
  = (Json 500 (str "Error generating policy content: "
               ++ str "Azure OpenAI credentials not configured"), log).
Proof.
  intros Hcred Hmiss.
  assert (Hconf : configure_openai env log
                  = (inl (str "Azure OpenAI credentials not configured"), log)).
  { unfold configure_openai, Health.present in *.
    destruct (AZURE_OPENAI_API_KEY env) as [k|], (AZURE_OPENAI_ENDPOINT env) as [e|];
      try reflexivity.
    destruct (truthy k), (truthy e); try discriminate; reflexivity. }
  destruct (build_prompt_form_data form log) as [prompt Hprompt].
  assert (Hgen : generate_policy_content env create (build_form_data form) log
                 = (str "Error generating policy content: "
                    ++ str "Azure OpenAI credentials not configured", log)).
  { unfold generate_policy_content, try_except, generate_body, bind.
    now rewrite Hprompt, Hconf. }
  unfold generate_policy, try_except, bind. cbv zeta. rewrite Hmiss, Hgen.
  reflexivity.
Qed.

End Tables.

Lemma missing_credentials_no_call_witness :
  @generate_policy basic_latin lxml no_credentials unlucky_answer now0 form0 []
  = (Json 500 (str "Error generating policy content: "
               ++ str "Azure OpenAI credentials not configured"), []).
Proof.
  apply (@missing_credentials_no_call basic_latin lxml no_credentials unlucky_answer now0 form0 []).
  - reflexivity.
  - vm_compute. reflexivity.
Defined.

(** X4. The fields reported missing are exactly the four text fields whose
    submitted value is empty after trimming, in the order client name,
    industry, company size, policy type; the technology stack is never among
    them. *)
Theorem missing_fields_exact (form : gmap string pystr) :
  missing_fields (build_form_data form)
  = List.filter (fun field => negb (truthy (strip (form_get form field))))
      ["client_name"; "industry"; "company_size"; "policy_type"].
Proof.
  unfold missing_fields, required_fields. cbn [List.filter].
  rewrite !form_data_trimmed by (cbn; tauto).
  pose proof (tech_stack_never_empty form) as Htech.
  destruct (build_form_data form !!! "tech_stack") as [|c t] eqn:E; [congruence|].
  cbn [truthy negb].
  repeat match goal with
  | |- context [if ?b then _ else _] => destruct b
  end; reflexivity.
Qed.

End EndpointExtras.

Module DocumentExtras.
Import PyFacts SanitizerFacts RenderFacts App Examples Scenarios EndpointSpec
       CompletionExtras EndpointExtras Vocabulary.

Lemma footer_app (doc : document) : footer doc = doc ++ footer_blocks.
Proof.
  unfold footer, add_paragraph, footer_blocks. cbv zeta. cbn [truthy].
  rewrite <- app_assoc. cbn [app].
  replace (length (doc ++ [Paragraph None []])) with (S (length doc))
    by (rewrite length_app; cbn; lia).
  assert (Halt : forall f b1 b2,
            alter f (S (length doc)) (doc ++ [b1; b2]) = doc ++ [b1; f b2]).
  { intros f b1 b2. induction doc as [|a d IH]; [reflexivity|].
    cbn [app length]. cbn [alter list_alter] in *. now rewrite IH. }
  now rewrite !Halt.
Qed.

Section Tables.
Context `{CaseTables}.
Context `{Docx}.

(** Each line adds at most one block. *)
Lemma render_line_length (doc : document) (cp : option nat) (line : pystr) :
  (forall p, cp = Some p -> (p < length doc)%nat) ->
  (length (fst (render_line (doc, cp) line)) <= S (length doc))%nat
  /\ (forall p, snd (render_line (doc, cp) line) = Some p ->
                (p < length (fst (render_line (doc, cp) line)))%nat).
Proof.
  intros Hcp. destruct (plain line) eqn:Hp.
  - rewrite render_line_plain by assumption. destruct cp as [p|].
    + specialize (Hcp p eq_refl). cbn [fst snd].
      destruct (truthy (text_at doc p)); rewrite ?length_alter;
        (split; [lia|intros q [= <-]; assumption]).
    + unfold add_paragraph. cbn [truthy]. rewrite text_at_last.
      cbn [block_text concat truthy fst snd]. rewrite length_alter, length_app.
      cbn [length]. split; [lia|intros q [= <-]; lia].
  - destruct (render_line_closes doc cp line Hp) as [new [-> Hnew]].
    cbn [fst snd]. rewrite length_app. split; [lia|discriminate].
Qed.

Lemma render_lines_length (lines : list pystr) :
  forall (doc : document) (cp : option nat),
  (forall p, cp = Some p -> (p < length doc)%nat) ->
  (length (fst (foldl render_line (doc, cp) lines)) <= length doc + length lines)%nat.
Proof.
  induction lines as [|l lines IH]; intros doc cp Hcp; [cbn; lia|].
  cbn [foldl length]. destruct (render_line_length doc cp l Hcp) as [Hlen Hp].
  destruct (render_line (doc, cp) l) as [doc1 cp1]. cbn [fst snd] in *.
  specialize (IH doc1 cp1 Hp). lia.
Qed.

Lemma cover_blocks (now : Clock) (client_name policy_type : pystr) :
  cover now client_name policy_type
  = [Paragraph None [str "CRIMSON IT"]; Paragraph None [upper client_name];
     Paragraph None [policy_type];
     Paragraph None [str "Document Generated: " ++ strftime_B_d_Y now;
                     str "
Managed by: Crimson IT (MSP/MSSP)"];
     Paragraph None [replicate 60 95]; Paragraph None []].
Proof. reflexivity. Qed.

Lemma refusal_app (ts us : list pystr) :
  refusal (ts ++ us)
  = match refusal ts with
    | Some e => Some e
    | None => refusal us
    end.
Proof.
  induction ts as [|t ts IH]; [reflexivity|]. cbn [app refusal].
  destruct (truthy t); [destruct (set_text t)|]; auto.
Qed.

Lemma refusal_two (a b : pystr) :
  refusal [a; b]
  = match refusal [a] with
    | Some e => Some e
    | None => refusal [b]
    end.
Proof. apply (refusal_app [a] [b]). Qed.

Lemma hand_over_eq (ts : list pystr) (log : list event) :
  hand_over ts log
  = match refusal ts with
    | Some e => (inl e, log)
    | None => (inr tt, log)
    end.
Proof. unfold hand_over. now destruct (refusal ts). Qed.

Lemma refusal_some (ts : list pystr) (e : pystr) :
  refusal ts = Some e -> exists text, In text ts /\ text <> [] /\ set_text text = Some e.
Proof.
  induction ts as [|t ts IH]; [discriminate|]. cbn [refusal].
  destruct t as [|c t]; cbn [truthy].
  - intros E. destruct (IH E) as (text & Hin & Hne & He). exists text. cbn. tauto.
  - destruct (set_text (c :: t)) as [e'|] eqn:Es.
    + intros [= <-]. exists (c :: t). cbn. split; [tauto|]. split; [discriminate|exact Es].
    + intros E. destruct (IH E) as (text & Hin & Hne & He). exists text. cbn. tauto.
Qed.

Lemma texts_app (d1 d2 : document) : texts (d1 ++ d2) = texts d1 ++ texts d2.
Proof. apply flat_map_app. Qed.

(** The texts of the document only grow at the end: each line hands its
    texts over after those of the lines before it, a run going to the
    paragraph that was added last. *)
Lemma render_line_texts (doc : document) (cp : option nat) (line : pystr) :
  (forall p, cp = Some p ->
     exists d style runs, doc = d ++ [Paragraph style runs] /\ p = length d) ->
  (exists new, texts (fst (render_line (doc, cp) line)) = texts doc ++ new)
  /\ (forall p, snd (render_line (doc, cp) line) = Some p ->
        exists d style runs,
          fst (render_line (doc, cp) line) = d ++ [Paragraph style runs] /\ p = length d).
Proof.
  intros Hcp. destruct (plain line) eqn:Hp.
  - rewrite render_line_plain by assumption.
    assert (Hopen : exists d style runs,
              (let '(doc, p) :=
                 match cp with
                 | None => (add_paragraph doc [] None, length doc)
                 | Some p => (doc, p)
                 end in (doc, p))
              = (d ++ [Paragraph style runs], length d)
              /\ exists new0, texts (d ++ [Paragraph style runs]) = texts doc ++ new0).
    { destruct cp as [p|].
      - destruct (Hcp p eq_refl) as (d & style & runs & -> & ->).
        exists d, style, runs. split; [reflexivity|]. exists []. now rewrite app_nil_r.
      - exists doc, None, []. split; [reflexivity|]. exists [].
        rewrite texts_app. reflexivity. }
    destruct Hopen as (d & style & runs & Hst & new0 & Hnew0).
    destruct (match cp with
              | None => (add_paragraph doc [] None, length doc)
              | Some p => (doc, p)
              end) as [doc1 p1].
    injection Hst as -> ->. rewrite text_at_last.
    destruct (truthy (block_text (Paragraph style runs)));
      rewrite ?alter_last; cbn [add_run fst snd]; rewrite ?alter_last; cbn [add_run].
    + split.
      * exists (new0 ++ [str " "; strip line]).
        rewrite texts_app in Hnew0 |- *. cbn [texts flat_map block_texts] in Hnew0 |- *.
        rewrite app_nil_r in Hnew0 |- *. rewrite <- !app_assoc.
        rewrite (app_assoc (texts d) runs), Hnew0, <- app_assoc. reflexivity.
      * intros p [= <-]. eauto.
    + split.
      * exists (new0 ++ [strip line]).
        rewrite texts_app in Hnew0 |- *. cbn [texts flat_map block_texts] in Hnew0 |- *.
        rewrite app_nil_r in Hnew0 |- *.
        rewrite (app_assoc (texts d) runs), Hnew0, <- app_assoc. reflexivity.
      * intros p [= <-]. eauto.
  - destruct (render_line_closes doc cp line Hp) as (new & -> & _). cbn [fst snd].
    split; [|discriminate]. exists (texts new). apply texts_app.
Qed.

Lemma render_lines_texts (lines : list pystr) :
  forall (doc : document) (cp : option nat),
  (forall p, cp = Some p ->
     exists d style runs, doc = d ++ [Paragraph style runs] /\ p = length d) ->
  exists new, texts (fst (foldl render_line (doc, cp) lines)) = texts doc ++ new.
Proof.
  induction lines as [|l lines IH]; intros doc cp Hcp.
  - exists []. cbn [foldl fst]. now rewrite app_nil_r.
  - cbn [foldl]. destruct (render_line_texts doc cp l Hcp) as [[new Hnew] Hinv].
    destruct (render_line (doc, cp) l) as [doc1 cp1]. cbn [fst snd] in *.
    destruct (IH doc1 cp1 Hinv) as [new1 Hnew1].
    exists (new ++ new1). now rewrite Hnew1, Hnew, app_assoc.
Qed.

(** With both keys, the checks made on the way add nothing to the check of
    the texts of the whole document, whose first two they are. *)
Lemma document_built (now : Clock) (form_data : gmap string pystr)
    (policy_content client_name policy_type : pystr) (log : list event) :
  form_data !! "client_name" = Some client_name ->
  form_data !! "policy_type" = Some policy_type ->
  exists body,
    (length body <= length (split policy_content LF))%nat
    /\ create_word_document now form_data policy_content log
       = (match refusal (texts (cover now client_name policy_type ++ body ++ footer_blocks)) with
          | Some e => inl (str "Error creating Word document: " ++ e)
          | None => inr (cover now client_name policy_type ++ body ++ footer_blocks)
          end, log).
Proof.
  intros Hc Hp.
  set (c := cover now client_name policy_type).
  set (lines := split policy_content LF).
  pose proof (render_lines_appends c None lines) as Happ.
  pose proof (render_lines_length lines c None) as Hlen.
  assert (Hbody : exists body, fst (render_lines c lines) = c ++ body
                               /\ (length body <= length lines)%nat).
  { unfold render_lines.
    destruct (foldl render_line (c, None) lines) as [doc cp]. cbn [fst] in *.
    destruct Happ as (_ & Hge & _ & Htake); [discriminate|].
    specialize (Htake eq_refl). specialize (Hlen ltac:(discriminate)).
    exists (drop (length c) doc). split.
    - rewrite <- Htake at 1. now rewrite take_drop.
    - rewrite length_drop. lia. }
  destruct Hbody as (body & Hdoc & Hle). exists body. split; [exact Hle|].
  unfold create_word_document, bind.
  assert (Htexts : texts (c ++ body ++ footer_blocks)
                   = [str "CRIMSON IT"; upper client_name]
                     ++ texts (drop 2 c ++ body ++ footer_blocks)).
  { unfold c. rewrite cover_blocks. reflexivity. }
  rewrite Htexts, refusal_app, refusal_two.
  rewrite hand_over_eq.
  destruct (refusal [str "CRIMSON IT"]) as [e|] eqn:E1; [reflexivity|].
  cbv beta iota. rewrite (getitem_some _ _ _ _ Hc). cbv beta iota.
  rewrite hand_over_eq, refusal_two, E1.
  destruct (refusal [upper client_name]) as [e|] eqn:E2; [reflexivity|].
  cbv beta iota. rewrite (getitem_some _ _ _ _ Hp). cbv beta iota zeta.
  fold c. fold lines.
  destruct (render_lines c lines) as [doc cp]. cbn [fst] in Hdoc. subst doc.
  rewrite footer_app, <- app_assoc.
  rewrite hand_over_eq, Htexts, refusal_app, refusal_two, E1, E2.
  destruct (refusal (texts (drop 2 c ++ body ++ footer_blocks))); reflexivity.
Qed.


(** A line that is not blank never leaves an empty unstyled paragraph: it
    appends a heading, a list item, or text to a paragraph. *)
Lemma render_line_no_spacer (doc : document) (cp : option nat) (line : pystr) (n : nat) :
  strip line <> [] ->
  (forall p, cp = Some p -> (p < length doc)%nat) ->
  (forall i b, (n <= i)%nat -> doc !! i = Some b -> b <> Paragraph None []) ->
  forall i b, (n <= i)%nat -> fst (render_line (doc, cp) line) !! i = Some b ->
              b <> Paragraph None [].
Proof.
  intros Hne Hcp Hdoc i b Hi.
  assert (Hrun : forall t blk, add_run t blk <> Paragraph None []).
  { intros t [x lv|st runs]; cbn; [discriminate|].
    intros [= _ E]. now apply app_eq_nil in E as [_ E]. }
  assert (Halter : forall t p (d : document),
            (forall j c, (n <= j)%nat -> d !! j = Some c -> c <> Paragraph None []) ->
            forall j c, (n <= j)%nat -> alter (add_run t) p d !! j = Some c ->
                        c <> Paragraph None []).
  { intros t p d Hd j c Hj. rewrite list_lookup_alter.
    destruct (decide (p = j)) as [->|Hpj].
    - destruct (d !! j); cbn; [|discriminate]. intros [= <-]. apply Hrun.
    - now apply Hd. }
  assert (Happ : forall blk, blk <> Paragraph None [] ->
            forall j c, (n <= j)%nat -> (doc ++ [blk]) !! j = Some c ->
                        c <> Paragraph None []).
  { intros blk Hblk j c Hj Hl. apply lookup_app_Some in Hl as [Hl|[_ Hl]].
    - now apply (Hdoc j).
    - destruct (j - length doc)%nat; [|discriminate]. cbn in Hl. congruence. }
  destruct (plain line) eqn:Hp.
  - rewrite render_line_plain by assumption. destruct cp as [p|]; cbn [fst].
    + destruct (truthy (text_at doc p)); repeat apply Halter; assumption.
    + unfold add_paragraph. cbn [truthy]. rewrite text_at_last.
      cbn [block_text concat truthy]. rewrite alter_last. cbn [add_run app].
      apply Happ; [discriminate|assumption].
  - unfold plain in Hp. destruct (strip line) as [|c0 l0] eqn:Es; [congruence|].
    cbn [truthy andb] in Hp. apply negb_false_iff in Hp.
    unfold render_line. cbv zeta. rewrite Es. cbn [truthy negb].
    unfold structural in Hp. unfold add_heading, add_paragraph.
    repeat match goal with
    | |- context [if ?c then (_, None) else _] => destruct c eqn:?
    end; cbn [fst]; try (apply Happ; [discriminate|assumption]).
    cbn [orb andb] in Hp. discriminate.
Qed.

Lemma render_lines_no_spacer (lines : list pystr) (n : nat) :
  Forall (fun l => strip l <> []) lines ->
  forall (doc : document) (cp : option nat),
  (forall p, cp = Some p -> (p < length doc)%nat) ->
  (forall i b, (n <= i)%nat -> doc !! i = Some b -> b <> Paragraph None []) ->
  forall i b, (n <= i)%nat -> fst (foldl render_line (doc, cp) lines) !! i = Some b ->
              b <> Paragraph None [].
Proof.
  induction 1 as [|l lines Hl _ IH]; intros doc cp Hcp Hdoc; [exact Hdoc|].
  cbn [foldl].
  pose proof (render_line_no_spacer doc cp l n Hl Hcp Hdoc) as Hstep.
  destruct (render_line_length doc cp l Hcp) as [_ Hp].
  destruct (render_line (doc, cp) l) as [doc1 cp1]. cbn [fst snd] in *.
  now apply IH.
Qed.

(** The lines of a cleaned text are not blank, unless the text is empty. *)
Lemma sanitize_lines_nonblank (raw : pystr) :
  sanitize raw = [] \/ Forall (fun l => strip l <> []) (split (sanitize raw) LF).
Proof.
  rewrite sanitize_eq.
  set (n := normalize (remove_prefix prefixes_to_remove raw)).
  pose proof (cleaned_lines_ok n (normalize_chars _) (normalize_no_bold _)) as Hok.
  destruct (clean_lines (split n LF)) as [|l cl] eqn:Ecl; [now left|].
  right. rewrite <- Ecl in *. rewrite split_join.
  - eapply List.Forall_impl; [|exact Hok]. cbn. intros a [[Hs Hk] _].
    rewrite Hs. now apply keeps_truthy.
  - rewrite Ecl. discriminate.
  - eapply List.Forall_impl; [|exact Hok]. cbn. tauto.
Qed.

(** X7. Rendering a cleaned text appends a body without any empty unstyled
    paragraph: the blank lines of the model's answer are gone before the
    renderer runs, so it never emits the paragraph that separates two
    paragraphs. *)
Theorem sanitized_body_has_no_spacer (raw : pystr) (doc : document) :
  exists body,
    fst (render_lines doc (split (sanitize raw) LF)) = doc ++ body
    /\ ~ In (Paragraph None []) body.
Proof.
  unfold render_lines.
  set (lines := split (sanitize raw) LF).
  pose proof (render_lines_appends doc None lines) as Happ.
  assert (Hbody : forall i b, (length doc <= i)%nat ->
            fst (foldl render_line (doc, None) lines) !! i = Some b ->
            b <> Paragraph None []).
  { destruct (sanitize_lines_nonblank raw) as [Hempty|Hlines].
    - subst lines. rewrite Hempty. cbn. intros i b Hi Hl.
      apply lookup_lt_Some in Hl. lia.
    - apply render_lines_no_spacer; [exact Hlines|discriminate|].
      intros i b Hi Hl. apply lookup_lt_Some in Hl. lia. }
  destruct (foldl render_line (doc, None) lines) as [doc' cp']. cbn [fst] in *.
  destruct Happ as (_ & Hge & _ & Htake); [discriminate|]. specialize (Htake eq_refl).
  exists (drop (length doc) doc'). split.
  - rewrite <- Htake at 1. now rewrite take_drop.
  - intros Hin. apply list_elem_of_In, list_elem_of_lookup in Hin as [i Hi].
    rewrite lookup_drop in Hi.
    exact (Hbody (length doc + i)%nat _ (Nat.le_add_r _ _) Hi eq_refl).
Qed.

(** X20. The form data the endpoint builds holds every key that the prompt
    and the document read, whatever was submitted: the prompt is always
    built, and the construction of the document either succeeds or fails
    with the exception of a text that python-docx refuses, never with a
    [KeyError]; neither logs anything. *)
Theorem built_form_data_suffices (now : Clock) (form : gmap string pystr)
    (policy_content : pystr) (log : list event) :
  (exists prompt, build_prompt (build_form_data form) log = (inr prompt, log))
  /\ ((exists doc,
         create_word_document now (build_form_data form) policy_content log
         = (inr doc, log))
      \/ (exists text e,
            text <> [] /\ set_text text = Some e
            /\ create_word_document now (build_form_data form) policy_content log
               = (inl (str "Error creating Word document: " ++ e), log))).
Proof.
  split; [apply build_prompt_form_data|].
  destruct (form_data_keys form "client_name") as [c Hc]; [cbn; tauto|].
  destruct (form_data_keys form "policy_type") as [t Ht]; [cbn; tauto|].
  destruct (document_built now (build_form_data form) policy_content c t log Hc Ht)
    as (body & _ & ->).
  destruct (refusal _) as [e|] eqn:E; [right|left; eauto].
  destruct (refusal_some _ _ E) as (text & _ & Hne & He). eauto.
Qed.

End Tables.

(** A client name with a control character passes the validation and the
    generation, and is refused when the document is built: the endpoint
    answers 500 and saves no file. *)
Lemma control_character_is_refused :
  @generate_policy basic_latin lxml env0 second_answers now0 form_control []
  = (Json 500 (str "An error occurred: Error creating Word document: All strings must be XML compatible: Unicode or ASCII, no NULL bytes or control characters"),
     [EvConfigure (str "key") (str "https://example.openai.azure.com");
      EvChatCompletion (str "gpt-5-chat"); EvChatCompletion (str "gpt-4o")]).
Proof. vm_compute. reflexivity. Qed.


End DocumentExtras.

Module SanitizerExtras.
Import PyFacts SanitizerFacts App Examples.

Lemma in_drop_in {A} (x : A) (n : nat) (l : list A) : In x (drop n l) -> In x l.
Proof.
  intros Hx. rewrite <- (take_drop n l). apply in_or_app. now right.
Qed.

Lemma in_remove_prefix (x : codepoint) (ps : list pystr) (content : pystr) :
  In x (remove_prefix ps content) -> In x content.
Proof.
  induction ps as [|p ps IH]; [trivial|]. cbn [remove_prefix].
  destruct (startswith (strip content) p); [|exact IH].
  intros Hx. apply in_strip, in_drop_in, in_strip in Hx. exact Hx.
Qed.

Lemma in_normalize (x : codepoint) (content : pystr) :
  In x (normalize content) -> x = ord "-" \/ In x content.
Proof.
  unfold normalize, remove_bold. rewrite standardize_bullets_map.
  change (str "**") with star2. change (str "") with (@nil N).
  change (ord "-") with 45.
  assert (Hmap : forall a s, In x (map (to_hyphen a) s) -> x = 45 \/ In x s).
  { intros a s Hx. apply List.in_map_iff in Hx as [y [<- Hy]]. unfold to_hyphen.
    destruct (y =? a); [now left|now right]. }
  intros Hx.
  apply Hmap in Hx as [?|Hx]; [now left|].
  apply Hmap in Hx as [?|Hx]; [now left|].
  apply Hmap in Hx as [?|Hx]; [now left|].
  apply in_replace_from_nil in Hx. rewrite replace_dashes_map in Hx.
  apply Hmap in Hx as [?|Hx]; [now left|].
  apply Hmap in Hx as [?|Hx]; [now left|]. now right.
Qed.

Section Tables.
Context `{CaseTables}.

(** X9. The clean-up invents nothing: every character of the cleaned text is
    a character of the raw text, a hyphen or a line feed. *)
Theorem sanitize_no_new_characters (raw : pystr) (x : codepoint) :
  In x (sanitize raw) -> In x raw \/ x = ord "-" \/ x = LF.
Proof.
  rewrite sanitize_eq. intros Hx.
  apply in_join in Hx as [[<-|[]]|[l [Hl Hx]]]; [now right; right|].
  apply clean_lines_from in Hl as [l0 [Hl0 ->]].
  apply in_strip in Hx. apply (in_split x LF _ l0 Hl0) in Hx.
  apply in_normalize in Hx as [?|Hx]; [now right; left|].
  left. now apply in_remove_prefix in Hx.
Qed.

(** X10. No line of the cleaned text holds, in lower case, one of the
    assistant phrases, and none is one of the artifact lines: such lines are
    dropped whole, wherever they stand in the answer. *)
Theorem sanitize_drops_chatter (raw l phrase : pystr) :
  In l (split (sanitize raw) LF) -> l <> [] -> In phrase chatter_phrases ->
  contains phrase (lower l) = false /\ mem l artifacts = false.
Proof.
  rewrite sanitize_eq.
  set (n := normalize (remove_prefix prefixes_to_remove raw)).
  pose proof (cleaned_lines_ok n (normalize_chars _) (normalize_no_bold _)) as Hok.
  destruct (clean_lines (split n LF)) as [|l0 cl] eqn:Ecl.
  - cbn [join split]. intros [<-|[]] Hne. congruence.
  - rewrite <- Ecl in *. rewrite split_join.
    + intros Hl _ Hp. rewrite List.Forall_forall in Hok.
      destruct (Hok l Hl) as [[_ Hk] _]. unfold keeps in Hk.
      apply andb_true_iff in Hk as [Hk _]. apply andb_true_iff in Hk as [Hk _].
      apply andb_true_iff in Hk as [Hc Ha].
      apply negb_true_iff in Hc, Ha. split; [|exact Ha].
      destruct (contains phrase (lower l)) eqn:E; [|reflexivity].
      assert (existsb (fun phrase => contains phrase (lower l)) chatter_phrases = true);
        [|congruence].
      apply existsb_exists. now exists phrase.
    + rewrite Ecl. discriminate.
    + eapply List.Forall_impl; [|exact Hok]. cbn. tauto.
Qed.

End Tables.

Lemma sanitize_no_new_characters_witness :
  In (ord "P") (str "Sure! **Plan** — now")
  \/ ord "P" = ord "-" \/ ord "P" = LF.
Proof.
  apply (@sanitize_no_new_characters basic_latin (str "Sure! **Plan** — now") (ord "P")).
  vm_compute. left. reflexivity.
Defined.

Lemma sanitize_drops_chatter_witness :
  contains (str "let me know if") (@lower basic_latin (str "- item")) = false
  /\ mem (str "- item") artifacts = false.
Proof.
  apply (@sanitize_drops_chatter basic_latin chatty_answer (str "- item")
           (str "let me know if")).
  - vm_compute. tauto.
  - discriminate.
  - vm_compute. tauto.
Defined.

End SanitizerExtras.

Module DownloadExtras.
Import PyFacts App Examples.

Section Tables.
Context `{CaseTables}.

Lemma filter_sublist {A} (f : A -> bool) (l : list A) : sublist (List.filter f l) l.
Proof.
  induction l as [|a l IH]; cbn [List.filter]; [constructor|].
  destruct (f a); now constructor.
Qed.

(** X8. A part of the download name is what is left of the submitted value
    when characters are removed, never changed or reordered; it holds only
    alphanumeric characters, spaces, hyphens and underscores, and does not
    end with whitespace; cleaning a cleaned name changes nothing. *)
Theorem safe_name_is_safe (s : pystr) :
  sublist (safe_name s) s
  /\ Forall (fun c => isalnum c = true \/ In c (str " -_")) (safe_name s)
  /\ ends_ok isspace (safe_name s) = true
  /\ safe_name (safe_name s) = safe_name s.
Proof.
  unfold safe_name.
  set (ok := fun c : N => isalnum c || existsb (N.eqb c) (str " -_")).
  assert (Hin : forall c, In c (rstrip_by isspace (List.filter ok s)) ->
                          In c s /\ ok c = true).
  { intros c Hc. destruct (rstrip_by_prefix isspace (List.filter ok s)) as [post E].
    apply List.filter_In. rewrite E. apply in_or_app. now left. }
  split; [|split; [|split]].
  - transitivity (List.filter ok s); [|apply filter_sublist].
    destruct (rstrip_by_prefix isspace (List.filter ok s)) as [post E].
    rewrite E at 2. now apply sublist_inserts_r.
  - apply List.Forall_forall. intros c Hc. destruct (Hin c Hc) as [_ Hok].
    unfold ok in Hok. apply orb_true_iff in Hok as [?|Hex]; [now left|right].
    apply existsb_exists in Hex as [d [Hd Hcd]]. apply N.eqb_eq in Hcd. now subst.
  - apply rstrip_by_ends_ok.
  - rewrite List.forallb_filter_id.
    + apply rstrip_by_fix, rstrip_by_ends_ok.
    + apply forallb_forall. intros c Hc. now apply Hin.
Qed.

End Tables.
End DownloadExtras.

Module EffectExtras.
Import PyFacts App Examples CompletionExtras EndpointExtras.

Lemma getitem_log (d : gmap string pystr) (k : string) (log : list event) :
  snd (getitem d k log) = log.
Proof. unfold getitem. now destruct (d !! k). Qed.

Lemma build_prompt_log (form_data : gmap string pystr) (log : list event) :
  snd (build_prompt form_data log) = log.
Proof.
  unfold build_prompt, bind, getitem, ret, raise.
  repeat match goal with
  | |- context [form_data !! ?k] => destruct (form_data !! k)
  end; reflexivity.
Qed.

Lemma configure_openai_cases (env : Env) (log : list event) :
  (exists e, configure_openai env log = (inl e, log))
  \/ (exists key base, configure_openai env log = (inr tt, log ++ [EvConfigure key base])).
Proof.
  unfold configure_openai, raise, emit.
  destruct (AZURE_OPENAI_API_KEY env) as [k|], (AZURE_OPENAI_ENDPOINT env) as [e|];
    eauto.
  destruct (negb (truthy k) || negb (truthy e)); eauto.
Qed.

Section Tables.
Context `{CaseTables}.
Context `{Docx}.

(** The generation configures the client and then calls candidates; when it
    does nothing outward, its text reports an error. *)
Lemma generation_effects (env : Env) (create : Service)
    (form_data : gmap string pystr) (log : list event) :
  exists evs,
    snd (generate_policy_content env create form_data log) = log ++ evs
    /\ ((evs = []
         /\ startswith (fst (generate_policy_content env create form_data log))
              (str "Error generating policy content:") = true)
        \/ exists key base k, (k <= length model_names)%nat
             /\ evs = EvConfigure key base :: map EvChatCompletion (take k model_names)).
Proof.
  assert (Herr : forall e,
            startswith (str "Error generating policy content: " ++ e)
              (str "Error generating policy content:") = true).
  { intros e. change (str "Error generating policy content: " ++ e)
      with (str "Error generating policy content:" ++ (32 :: e)).
    apply startswith_app. }
  unfold generate_policy_content, try_except, generate_body, bind.
  pose proof (build_prompt_log form_data log) as Hp.
  destruct (build_prompt form_data log) as [[e|prompt] log1]; cbn [snd] in Hp; subst log1.
  { exists []. rewrite app_nil_r. cbn [fst snd]. auto. }
  destruct (configure_openai_cases env log) as [[e ->]|[key [base ->]]].
  { exists []. rewrite app_nil_r. cbn [fst snd]. auto. }
  destruct (complete_calls_a_prefix create prompt model_names
              (log ++ [EvConfigure key base])) as (k & Hk & Hlog & _).
  exists (EvConfigure key base :: map EvChatCompletion (take k model_names)).
  split; [|right; eauto].
  destruct (complete create prompt model_names (log ++ [EvConfigure key base]))
    as [[e|response] log2]; cbn [snd] in Hlog; subst log2.
  - cbn [snd]. now rewrite <- app_assoc.
  - destruct response as [|[content|] rest]; cbn [snd]; now rewrite <- app_assoc.
Qed.

Lemma create_word_document_log (now : Clock) (form_data : gmap string pystr)
    (policy_content : pystr) (log : list event) :
  snd (create_word_document now form_data policy_content log) = log.
Proof.
  unfold create_word_document, bind, hand_over, getitem, ret, raise.
  destruct (refusal [str "CRIMSON IT"]); [reflexivity|].
  destruct (form_data !! "client_name"); [|reflexivity].
  destruct (refusal [str "CRIMSON IT"; _]); [reflexivity|].
  destruct (form_data !! "policy_type"); [|reflexivity].
  cbv zeta. destruct (render_lines _ _). destruct (refusal _); reflexivity.
Qed.

(** X5. The outward actions of one request to the endpoint, in order:
    nothing; or one configuration of the client, then calls to the first
    candidates (at most the two of the list), then possibly the saving of the
    document, and nothing else. A document is sent only after it was saved. *)
Theorem endpoint_effects (env : Env) (create : Service) (now : Clock)
    (form : gmap string pystr) (log : list event) :
  exists evs,
    snd (generate_policy env create now form log) = log ++ evs
    /\ (evs = [] \/
        exists key base k tail, (k <= 2)%nat
          /\ evs = EvConfigure key base
                   :: map EvChatCompletion (take k model_names) ++ tail
          /\ (tail = [] \/ tail = [EvSaveTempFile]))
    /\ match fst (generate_policy env create now form log) with
       | SendFile _ _ => last evs = Some EvSaveTempFile
       | Json _ _ => True
       end.
Proof.
  unfold generate_policy, try_except, bind. cbv zeta.
  destruct (missing_fields (build_form_data form)) as [|f fs].
  2:{ exists []. rewrite app_nil_r. cbn. tauto. }
  destruct (generation_effects env create (build_form_data form) log)
    as (evs & Hlog & Hshape).
  destruct (generate_policy_content env create (build_form_data form) log)
    as [content log1]. cbn [fst snd] in Hlog, Hshape. subst log1.
  assert (Hnosave : evs = [] \/
            exists key base k tail, (k <= 2)%nat
              /\ evs = EvConfigure key base
                       :: map EvChatCompletion (take k model_names) ++ tail
              /\ (tail = [] \/ tail = [EvSaveTempFile])).
  { destruct Hshape as [[-> _]|(key & base & k & Hk & ->)]; [now left|right].
    exists key, base, k, []. rewrite app_nil_r. cbn in Hk. tauto. }
  destruct (startswith content (str "Error generating policy content:")) eqn:Hs.
  { exists evs. cbn. tauto. }
  pose proof (create_word_document_log now (build_form_data form) content (log ++ evs))
    as Hdoc.
  destruct (create_word_document now (build_form_data form) content (log ++ evs))
    as [[e|doc] log2]; cbn [snd] in Hdoc; subst log2.
  { exists evs. cbn. tauto. }
  exists (evs ++ [EvSaveTempFile]). cbn [fst snd emit ret].
  rewrite app_assoc. split; [reflexivity|]. split; [|apply last_snoc].
  destruct Hshape as [[_ Hprefix]|(key & base & k & Hk & ->)]; [congruence|].
  right. exists key, base, k, [EvSaveTempFile]. cbn in Hk.
  split; [lia|]. split; [reflexivity|tauto].
Qed.

End Tables.
End EffectExtras.

Module HealthExtras.
Import PyFacts App Examples Health Vocabulary.

Lemma probe_models_two (create : Service) (log : list event) :
  probe_models create model_names [] log
  = ([(str "gpt-5-chat", probe_result (create log (str "gpt-5-chat") (str "Hello")));
      (str "gpt-4o",
       probe_result (create (log ++ [EvChatCompletion (str "gpt-5-chat")])
                       (str "gpt-4o") (str "Hello")))],
     (log ++ [EvChatCompletion (str "gpt-5-chat")]) ++ [EvChatCompletion (str "gpt-4o")]).
Proof.
  assert (Hne : eqb (str "gpt-5-chat") (str "gpt-4o") = false)
    by (vm_compute; reflexivity).
  unfold model_names. cbn [probe_models]. unfold ChatCompletion_create.
  destruct (create log (str "gpt-5-chat") (str "Hello"));
    destruct (create (log ++ [EvChatCompletion (str "gpt-5-chat")])
                (str "gpt-4o") (str "Hello"));
    cbn [setitem probe_result]; rewrite Hne; reflexivity.
Qed.

(** X11. The health view always answers with status "healthy" and never
    records a test error. Without both credentials it does nothing outward
    and reports no availability. With them it configures the client and then
    probes every candidate once, in order, whatever the earlier probes gave,
    and reports for each "available" or the error of its own probe. *)
Theorem health_probes_every_model (env : Env) (create : Service) (log : list event) :
  exists info,
    fst (health env create log) = Info info
    /\ status info = str "healthy"
    /\ openai_test_error info = None
    /\ openai_configured info
       = present (AZURE_OPENAI_API_KEY env) && present (AZURE_OPENAI_ENDPOINT env)
    /\ if openai_configured info
       then exists key base,
              snd (health env create log)
              = log ++ [EvConfigure key base; EvChatCompletion (str "gpt-5-chat");
                        EvChatCompletion (str "gpt-4o")]
              /\ model_availability info
                 = Some [(str "gpt-5-chat",
                          probe_result (create (log ++ [EvConfigure key base])
                                          (str "gpt-5-chat") (str "Hello")));
                         (str "gpt-4o",
                          probe_result
                            (create (log ++ [EvConfigure key base;
                                             EvChatCompletion (str "gpt-5-chat")])
                               (str "gpt-4o") (str "Hello")))]
       else snd (health env create log) = log /\ model_availability info = None.
Proof.
  unfold health, try_except.
  destruct (present (AZURE_OPENAI_API_KEY env) && present (AZURE_OPENAI_ENDPOINT env))
    eqn:Hboth; cbv zeta; rewrite ?Hboth.
  - apply andb_true_iff in Hboth as [Hk He]. unfold present in Hk, He.
    destruct (AZURE_OPENAI_API_KEY env) as [k|] eqn:Ek; [|discriminate].
    destruct (AZURE_OPENAI_ENDPOINT env) as [e|] eqn:Ee; [|discriminate].
    unfold bind, configure_openai, emit. rewrite Ek, Ee, Hk, He. cbn [negb orb].
    rewrite probe_models_two.
    eexists. cbn [fst snd status openai_test_error openai_configured model_availability].
    repeat (split; [reflexivity|]).
    exists k, e. rewrite <- !app_assoc. split; reflexivity.
  - unfold ret. eexists.
    cbn [fst snd status openai_test_error openai_configured model_availability].
    repeat (split; [reflexivity|]). split; reflexivity.
Qed.

End HealthExtras.

Module ITGlueExtras.
Import PyFacts ITGlue ITGlueAPI ITGlueExamples.

Section Tables.
Context `{CaseTables}.
Variable listing : gset (list N) -> list (list N).

(** X12. Without an API key (unset or empty) no request is sent: the list of
    organizations is empty and no profile is returned. *)
Theorem no_api_key_no_request (api_key : option pystr) (api : Api) (org_id : Z)
    (sent : list request) :
  Health.present api_key = false ->
  get_active_organizations api_key api sent = ([], sent)
  /\ get_organization_profile listing api_key api org_id sent = (None, sent).
Proof.
  intros Hk. unfold get_active_organizations, get_organization_profile, _make_request.
  rewrite Hk. split; reflexivity.
Qed.

Lemma active_loop_filter (data : list resource) :
  Forall (fun org => attributes org !! "organization-status-name" <> Some None) data ->
  forall organizations,
  active_loop data organizations
  = inr (organizations ++ map org_entry (List.filter is_active data)).
Proof.
  induction 1 as [|org data Hs _ IH]; intros acc.
  - cbn [active_loop List.filter map]. now rewrite app_nil_r.
  - cbn [active_loop List.filter]. unfold is_active, attr_get, lower_of, text_of in *.
    destruct (attributes org !! "organization-status-name") as [[s|]|] eqn:E;
      [|congruence|];
      (destruct (contains (str "active") _); rewrite IH; [|reflexivity];
       cbn [map]; rewrite <- app_assoc; cbn [app]; do 3 f_equal;
       unfold org_entry, attr_get; now rewrite E).
Qed.

Lemma active_loop_null (data : list resource) (org : resource) :
  In org data -> attributes org !! "organization-status-name" = Some None ->
  forall organizations, exists e, active_loop data organizations = inl e.
Proof.
  intros Hin Hnull. induction data as [|o data IH]; [destruct Hin|].
  intros acc. cbn [active_loop]. destruct Hin as [->|Hin].
  - unfold attr_get. rewrite Hnull. cbn [lower_of]. eauto.
  - destruct (lower_of _); [eauto|].
    destruct (contains _ _); now apply IH.
Qed.

(** X13. With an API key and a list answer in which no status is [null], the
    organizations returned are, in the order of the answer, those whose
    status name holds "active" once lowered; the test is a substring test, so
    a status such as "Inactive" passes it. One request is sent. *)
Theorem active_means_contains_active (api_key : option pystr) (api : Api)
    (sent : list request) (data : list resource) :
  Health.present api_key = true ->
  api sent {| endpoint := str "/organizations";
              params := [("page[size]", str "500"); ("sort", str "name")] |}
  = DataList data ->
  Forall (fun org => attributes org !! "organization-status-name" <> Some None) data ->
  get_active_organizations api_key api sent
  = (map org_entry (List.filter is_active data),
     sent ++ [{| endpoint := str "/organizations";
                 params := [("page[size]", str "500"); ("sort", str "name")] |}]).
Proof.
  intros Hk Hapi Hall. unfold get_active_organizations, _make_request.
  rewrite Hk. cbn [negb]. rewrite Hapi, (active_loop_filter data Hall). reflexivity.
Qed.

(** X14. One organization with a [null] status in the answer empties the
    whole list: the exception of its [lower] is caught around the loop. *)
Theorem null_status_empties_the_list (api_key : option pystr) (api : Api)
    (sent : list request) (data : list resource) (org : resource) :
  api sent {| endpoint := str "/organizations";
              params := [("page[size]", str "500"); ("sort", str "name")] |}
  = DataList data ->
  In org data -> attributes org !! "organization-status-name" = Some None ->
  fst (get_active_organizations api_key api sent) = [].
Proof.
  intros Hapi Hin Hnull. unfold get_active_organizations, _make_request.
  destruct (negb (Health.present api_key)); [reflexivity|]. rewrite Hapi.
  destruct (active_loop_null data org Hin Hnull []) as [e ->]. reflexivity.
Qed.

End Tables.

Lemma no_api_key_no_request_witness :
  @get_active_organizations basic_latin (Some []) (lists three_orgs) [] = ([], [])
  /\ @get_organization_profile basic_latin elements (Some []) (lists three_orgs) 7 []
     = (None, []).
Proof.
  apply (@no_api_key_no_request basic_latin elements (Some []) (lists three_orgs) 7 []).
  reflexivity.
Defined.

Lemma active_means_contains_active_witness :
  @get_active_organizations basic_latin (Some (str "key")) (lists three_orgs) []
  = (map org_entry (List.filter (@is_active basic_latin) three_orgs),
     [] ++ [{| endpoint := str "/organizations";
               params := [("page[size]", str "500"); ("sort", str "name")] |}]).
Proof.
  apply (@active_means_contains_active basic_latin (Some (str "key")) (lists three_orgs)
           [] three_orgs).
  - reflexivity.
  - reflexivity.
  - repeat constructor; vm_compute; discriminate.
Defined.

(** The organizations that pass in the example: the inactive one too. *)
Lemma inactive_is_listed :
  List.filter (@is_active basic_latin) three_orgs
  = [org "1" "Acme" (Some (str "Active")); org "2" "Bolt" (Some (str "Inactive"))].
Proof. vm_compute. reflexivity. Qed.

Lemma null_status_empties_the_list_witness :
  fst (@get_active_organizations basic_latin (Some (str "key")) (lists orgs_with_null) [])
  = [].
Proof.
  apply (@null_status_empties_the_list basic_latin (Some (str "key"))
           (lists orgs_with_null) [] orgs_with_null (org "2" "Bolt" None)).
  - reflexivity.
  - right; left; reflexivity.
  - vm_compute. reflexivity.
Defined.

End ITGlueExtras.

Module ParseExtras.
Import PyFacts ITGlue ITGlueAPI ITGlueExamples.

Section Tables.
Context `{CaseTables}.

Lemma parse_loop_cons (c : resource) (rest : list resource) (tech_stack : buckets) :
  attributes c !! "configuration-type-name" <> Some None ->
  parse_loop (c :: rest) tech_stack
  = parse_loop rest
      match bucket_of c with
      | Endpoints =>
        {| endpoints := endpoints tech_stack ++ [config_item_of c];
           network := network tech_stack; security := security tech_stack;
           cloud := cloud tech_stack; other := other tech_stack |}
      | Network =>
        {| endpoints := endpoints tech_stack;
           network := network tech_stack ++ [config_item_of c];
           security := security tech_stack;
           cloud := cloud tech_stack; other := other tech_stack |}
      | Security =>
        {| endpoints := endpoints tech_stack; network := network tech_stack;
           security := security tech_stack ++ [config_item_of c];
           cloud := cloud tech_stack; other := other tech_stack |}
      | Cloud =>
        {| endpoints := endpoints tech_stack; network := network tech_stack;
           security := security tech_stack;
           cloud := cloud tech_stack ++ [config_item_of c]; other := other tech_stack |}
      | Other =>
        {| endpoints := endpoints tech_stack; network := network tech_stack;
           security := security tech_stack; cloud := cloud tech_stack;
           other := other tech_stack ++ [config_item_of c] |}
      end.
Proof.
  intros Hc. cbn [parse_loop]. unfold bucket_of, config_item_of, attr_get, lower_of, text_of.
  destruct (attributes c !! "configuration-type-name") as [[s|]|]; [|congruence|];
    repeat match goal with
    | |- context [if ?b then Endpoints else _] => destruct b
    | |- context [if ?b then Network else _] => destruct b
    | |- context [if ?b then Security else _] => destruct b
    | |- context [if ?b then Cloud else _] => destruct b
    end; reflexivity.
Qed.

Lemma parse_loop_filter (configurations : list resource) :
  Forall (fun c => attributes c !! "configuration-type-name" <> Some None) configurations ->
  forall tech_stack,
  parse_loop configurations tech_stack
  = inr {| endpoints := endpoints tech_stack
             ++ map config_item_of (List.filter (in_bucket Endpoints) configurations);
           network := network tech_stack
             ++ map config_item_of (List.filter (in_bucket Network) configurations);
           security := security tech_stack
             ++ map config_item_of (List.filter (in_bucket Security) configurations);
           cloud := cloud tech_stack
             ++ map config_item_of (List.filter (in_bucket Cloud) configurations);
           other := other tech_stack
             ++ map config_item_of (List.filter (in_bucket Other) configurations) |}.
Proof.
  induction 1 as [|c cs Hc _ IH]; intros acc.
  - cbn [parse_loop List.filter map]. rewrite !app_nil_r. now destruct acc.
  - rewrite (parse_loop_cons c cs acc Hc), IH. cbn [List.filter].
    destruct (bucket_of c) eqn:Eb; unfold in_bucket; rewrite Eb;
      cbn [endpoints network security cloud other map];
      rewrite <- ?app_assoc; reflexivity.
Qed.

Lemma parse_loop_null (configurations : list resource) :
  Exists (fun c => attributes c !! "configuration-type-name" = Some None) configurations ->
  forall tech_stack, exists e, parse_loop configurations tech_stack = inl e.
Proof.
  induction 1 as [c cs Hc|c cs _ IH]; intros acc; cbn [parse_loop].
  - unfold attr_get. rewrite Hc. cbn [lower_of]. eauto.
  - destruct (lower_of _); [eauto|].
    repeat match goal with
    | |- context [if ?b then _ else _] => destruct b
    end; apply IH.
Qed.

Lemma buckets_length (configurations : list resource) :
  (length (List.filter (in_bucket Endpoints) configurations)
   + length (List.filter (in_bucket Network) configurations)
   + length (List.filter (in_bucket Security) configurations)
   + length (List.filter (in_bucket Cloud) configurations)
   + length (List.filter (in_bucket Other) configurations))%nat
  = length configurations.
Proof.
  induction configurations as [|c cs IH]; [reflexivity|].
  cbn [List.filter]. destruct (bucket_of c) eqn:Eb; unfold in_bucket; rewrite Eb;
    cbn [length]; unfold in_bucket in IH; lia.
Qed.

(** X15. [_parse_configurations] fails exactly when some configuration has a
    [null] type name. Otherwise each bucket holds, in the order of the input,
    the items of the configurations whose lowered type name selects it (the
    first of the keyword tests that holds; [other] when none does), so every
    configuration is in exactly one bucket and the five lengths add up to the
    number of configurations. *)
Theorem parse_configurations_partition (configurations : list resource) :
  match _parse_configurations configurations with
  | inl _ =>
    Exists (fun c => attributes c !! "configuration-type-name" = Some None) configurations
  | inr tech_stack =>
    Forall (fun c => attributes c !! "configuration-type-name" <> Some None) configurations
    /\ endpoints tech_stack
       = map config_item_of (List.filter (in_bucket Endpoints) configurations)
    /\ network tech_stack
       = map config_item_of (List.filter (in_bucket Network) configurations)
    /\ security tech_stack
       = map config_item_of (List.filter (in_bucket Security) configurations)
    /\ cloud tech_stack
       = map config_item_of (List.filter (in_bucket Cloud) configurations)
    /\ other tech_stack
       = map config_item_of (List.filter (in_bucket Other) configurations)
    /\ length (all_items tech_stack) = length configurations
  end.
Proof.
  unfold _parse_configurations.
  destruct (decide (Exists (fun c => attributes c !! "configuration-type-name" = Some None)
                      configurations)) as [Hex|Hno].
  - destruct (parse_loop_null configurations Hex no_buckets) as [e ->]. exact Hex.
  - assert (Hall : Forall (fun c => attributes c !! "configuration-type-name" <> Some None)
                     configurations).
    { apply Forall_forall. intros c Hin Hc. apply Hno, Exists_exists. eauto. }
    rewrite (parse_loop_filter configurations Hall).
    cbn [no_buckets endpoints network security cloud other app].
    split; [exact Hall|]. do 5 (split; [reflexivity|]).
    unfold all_items. cbn [endpoints network security cloud other].
    rewrite !length_app, !length_map.
    pose proof (buckets_length configurations). lia.
Qed.

End Tables.
End ParseExtras.

Module ComplianceExtras.
Import PyFacts ITGlue ITGlueAPI ITGlueExamples ProfileExamples.

Lemma add_if_sub (b : bool) (S : gset (list N)) (a x : list N) :
  x ∈ (if b then S ∪ {[ a ]} else S) -> x ∈ S \/ x = a.
Proof.
  destruct b; [|tauto]. rewrite elem_of_union, elem_of_singleton. tauto.
Qed.

Lemma detect_in_sub (text : pystr) (S : gset (list N)) (x : list N) :
  x ∈ detect_in text S -> x ∈ S \/ In x (map (fun kw => str kw.2) framework_keywords).
Proof.
  intros Hx. unfold detect_in in Hx. cbv zeta in Hx.
  repeat (apply add_if_sub in Hx;
          destruct Hx as [Hx| ->];
          [|right; cbn [map In framework_keywords snd];
            repeat first [left; reflexivity | right]]).
  left. exact Hx.
Qed.

Section Tables.
Context `{CaseTables}.

Lemma detect_loop_sub (configurations : list resource) :
  forall S S', detect_loop configurations S = inr S' ->
  forall x, x ∈ S' -> x ∈ S \/ In x (map (fun kw => str kw.2) framework_keywords).
Proof.
  induction configurations as [|c cs IH]; intros S S'; cbn [detect_loop].
  - intros [= <-] x Hx. now left.
  - destruct (lower_of _) as [e|name]; [discriminate|].
    intros E x Hx. destruct (IH _ _ E x Hx) as [Hin|Hin]; [|now right].
    now apply detect_in_sub in Hin.
Qed.

Lemma detect_loop_names (configurations : list resource) :
  forall S S', detect_loop configurations S = inr S' ->
  Forall (fun c => attributes c !! "name" <> Some None) configurations.
Proof.
  induction configurations as [|c cs IH]; intros S S'; cbn [detect_loop]; [constructor|].
  unfold attr_get, lower_of.
  destruct (attributes c !! "name") as [[s|]|] eqn:E; [|discriminate|];
    intros E'; (constructor; [congruence|exact (IH _ _ E')]).
Qed.

End Tables.

Lemma detectable_mapped (x : pystr) :
  In x (map (fun kw => str kw.2) framework_keywords) ->
  exists v, lookup_str framework_mapping x = Some v
            /\ In v (map (fun kv => str kv.2) framework_mapping).
Proof.
  cbn [map In framework_keywords snd].
  intros Hx.
  repeat (destruct Hx as [<-|Hx];
          [eexists; split; [vm_compute; reflexivity|];
           cbn [map In framework_mapping snd];
           repeat first [left; vm_compute; reflexivity | right]|]).
  destruct Hx.
Qed.

Section Tables.
Context `{CaseTables}.
Variable listing : gset (list N) -> list (list N).

(** X18. Whatever the order in which the set of detected frameworks is
    listed, [_map_compliance] maps the list [_detect_compliance_frameworks]
    returns to the value of [framework_mapping] for its first element: every
    name the detector can add is a key of the mapping, so the raw-name
    fallback is never taken; the empty list gives the empty string. *)
Theorem detected_compliance_is_mapped (configurations : list resource)
    (frameworks : list pystr) :
  (forall S x, In x (listing S) -> x ∈ S) ->
  _detect_compliance_frameworks listing configurations = inr frameworks ->
  match frameworks with
  | [] => _map_compliance frameworks = []
  | first :: _ =>
    lookup_str framework_mapping first = Some (_map_compliance frameworks)
    /\ In (_map_compliance frameworks) (map (fun kv => str kv.2) framework_mapping)
  end.
Proof.
  intros Hlist. unfold _detect_compliance_frameworks.
  destruct (detect_loop configurations ∅) as [e|S] eqn:E; [discriminate|].
  intros [= <-]. destruct (listing S) as [|first rest] eqn:El; [reflexivity|].
  assert (Hin : first ∈ S) by (apply Hlist; rewrite El; now left).
  destruct (detect_loop_sub configurations _ _ E first Hin) as [Hemp|Hd];
    [now apply elem_of_empty in Hemp|].
  destruct (detectable_mapped first Hd) as (v & Hv & Hopt).
  unfold _map_compliance. cbn [first_known]. rewrite Hv. split; [reflexivity|exact Hopt].
Qed.

End Tables.

Lemma detected_compliance_is_mapped_witness :
  lookup_str framework_mapping (str "HIPAA") = Some (_map_compliance [str "HIPAA"])
  /\ In (_map_compliance [str "HIPAA"]) (map (fun kv => str kv.2) framework_mapping).
Proof.
  apply (@detected_compliance_is_mapped basic_latin elements hipaa_configs [str "HIPAA"]).
  - intros S x Hx. apply elem_of_elements, list_elem_of_In, Hx.
  - vm_compute. reflexivity.
Defined.

End ComplianceExtras.

Module ProfileExtras.
Import PyFacts ITGlue ITGlueAPI ITGlueExamples ProfileExamples ParseExtras ComplianceExtras.

Lemma null_name_entry (id name type status : option pystr) :
  null_name (entry id name type status) = match name with None => true | Some _ => false end.
Proof.
  unfold null_name, entry.
  rewrite lookup_insert_ne by discriminate. rewrite lookup_insert_eq. reflexivity.
Qed.

Section Tables.
Context `{CaseTables}.
Variable listing : gset (list N) -> list (list N).

Lemma all_items_from (configurations : list resource) (tech_stack : buckets) :
  _parse_configurations configurations = inr tech_stack ->
  length (all_items tech_stack) = length configurations
  /\ forall item, In item (all_items tech_stack) ->
       exists c, In c configurations /\ item = config_item_of c.
Proof.
  unfold _parse_configurations. intros E.
  destruct (decide (Exists (fun c => attributes c !! "configuration-type-name" = Some None)
                      configurations)) as [Hex|Hno].
  { destruct (parse_loop_null configurations Hex no_buckets) as [e He]. congruence. }
  assert (Hall : Forall (fun c => attributes c !! "configuration-type-name" <> Some None)
                   configurations).
  { apply Forall_forall. intros c Hin Hc. apply Hno, Exists_exists. eauto. }
  rewrite (parse_loop_filter configurations Hall) in E. injection E as <-.
  unfold all_items. cbn [no_buckets endpoints network security cloud other app]. split.
  - rewrite !length_app, !length_map.
    pose proof (buckets_length configurations). lia.
  - intros item Hin.
    repeat (apply in_app_or in Hin; destruct Hin as [Hin|Hin]);
      apply in_map_iff in Hin; destruct Hin as (c & <- & Hc);
      apply filter_In in Hc; destruct Hc as [Hc _]; eauto.
Qed.

Lemma parsed_and_scanned (configurations : list resource) (tech_stack : buckets)
    (S : gset (list N)) :
  _parse_configurations configurations = inr tech_stack ->
  detect_loop configurations ∅ = inr S ->
  length configurations = length (all_items tech_stack)
  /\ existsb null_name (all_items tech_stack) = false.
Proof.
  intros Ep Ed.
  destruct (all_items_from configurations tech_stack Ep) as [Hlen Hfrom].
  split; [now rewrite Hlen|].
  destruct (existsb null_name (all_items tech_stack)) eqn:Ex; [|reflexivity].
  apply existsb_exists in Ex. destruct Ex as (item & Hin & Hnull).
  destruct (Hfrom item Hin) as (c & Hc & ->).
  pose proof (detect_loop_names configurations _ _ Ed) as Hnames.
  rewrite List.Forall_forall in Hnames. specialize (Hnames c Hc).
  unfold config_item_of in Hnull. rewrite null_name_entry in Hnull.
  unfold attr_get in Hnull.
  destruct (attributes c !! "name") as [[s|]|]; congruence.
Qed.

(** X16. A profile that [get_organization_profile] returns was built from
    exactly two requests (the organization, then its configurations), its
    [total_configurations] is the number of items in its five buckets, and
    no item has a [null] name; so [map_profile_to_form_data] raises on it
    only when the organization type is [null]. *)
Theorem returned_profile_is_consistent (api_key : option pystr) (api : Api) (org_id : Z)
    (sent sent' : list request) (p : profile) :
  get_organization_profile listing api_key api org_id sent = (Some p, sent') ->
  sent' = sent ++ [{| endpoint := str "/organizations/" ++ str_of_int org_id;
                      params := [] |};
                   {| endpoint := str "/configurations";
                      params := [("filter[organization_id]", str_of_int org_id);
                                 ("page[size]", str "500")] |}]
  /\ total_configurations p = length (all_items (technology_stack p))
  /\ existsb null_name (all_items (technology_stack p)) = false
  /\ match map_profile_to_form_data (Some p) with
     | inl _ => organization p !! "organization_type" = Some None
     | inr _ => organization p !! "organization_type" <> Some None
     end.
Proof.
  unfold get_organization_profile, _make_request.
  destruct (negb (Health.present api_key)); [discriminate|].
  destruct (api sent _) as [| |org_data|]; try discriminate.
  intros E. cbv zeta in E.
  assert (Hp : sent' = (sent ++ [{| endpoint := str "/organizations/" ++ str_of_int org_id;
                                    params := [] |}])
                       ++ [{| endpoint := str "/configurations";
                              params := [("filter[organization_id]", str_of_int org_id);
                                         ("page[size]", str "500")] |}]
               /\ total_configurations p = length (all_items (technology_stack p))
               /\ existsb null_name (all_items (technology_stack p)) = false).
  { unfold _detect_compliance_frameworks in E.
    destruct (api _ _) as [| | |cs]; try discriminate;
      [set (cs := @nil resource) in *|];
      (destruct (_parse_configurations cs) as [e|ts] eqn:Ep; [discriminate|];
       destruct (detect_loop cs ∅) as [e|S] eqn:Ed; [discriminate|];
       injection E as <- <-; cbn [total_configurations technology_stack];
       split; [reflexivity|exact (parsed_and_scanned cs ts S Ep Ed)]). }
  destruct Hp as (-> & Hlen & Hnames).
  split; [now rewrite <- app_assoc|]. split; [exact Hlen|]. split; [exact Hnames|].
  unfold map_profile_to_form_data. rewrite Hnames. unfold attr_get at 1.
  clear. destruct (organization p !! "organization_type") as [[t|]|]; congruence.
Qed.

End Tables.

Lemma returned_profile_is_consistent_witness :
  exists p sent',
    @get_organization_profile basic_latin elements (Some (str "key")) profile_api 7 []
    = (Some p, sent')
    /\ total_configurations p = length (all_items (technology_stack p)).
Proof.
  destruct (@get_organization_profile basic_latin elements (Some (str "key")) profile_api 7 [])
    as [[p|] sent'] eqn:E.
  - exists p, sent'. split; [reflexivity|].
    apply (@returned_profile_is_consistent basic_latin elements (Some (str "key"))
             profile_api 7 [] sent' p E).
  - vm_compute in E. discriminate.
Defined.

End ProfileExtras.

Module FormExtras.
Import PyFacts ITGlue ITGlueAPI ITGlueExamples ProfileExamples.

Lemma first_industry_in (items : list (string * string)) (text : pystr) :
  In (first_industry items text) (str "Other" :: map (fun kv => str kv.2) items).
Proof.
  induction items as [|[k v] items IH]; cbn [first_industry map snd]; [now left|].
  destruct (contains _ _); [right; now left|].
  destruct IH as [IH|IH]; [now left|right; now right].
Qed.

Lemma first_industry_other (items : list (string * string)) (text : pystr) :
  Forall (fun kv => str kv.2 <> str "Other") items ->
  first_industry items text = str "Other"
  <-> Forall (fun kv => contains (str kv.1) text = false) items.
Proof.
  induction 1 as [|[k v] items Hv _ IH]; cbn [first_industry fst snd] in *.
  - split; [constructor|reflexivity].
  - destruct (contains (str k) text) eqn:E.
    + split; [intros E'; now destruct Hv|].
      intros Hall. apply Forall_cons_1 in Hall. cbn [fst] in Hall.
      destruct Hall. congruence.
    + rewrite IH. split; [now constructor|]. intros Hall. now apply Forall_cons_1 in Hall.
Qed.

Lemma industries_named : Forall (fun kv => str kv.2 <> str "Other") industry_mapping.
Proof.
  unfold industry_mapping.
  repeat (constructor; [cbn [snd]; intros E; vm_compute in E; discriminate|]).
  constructor.
Qed.

(** X17. [_map_industry] answers with one of eight values, the seven
    industries of its table or "Other", and with "Other" exactly when the
    lowered organization type holds none of the keywords of the table. *)
Theorem map_industry_options `{CaseTables} (org_type : pystr) :
  In (_map_industry org_type)
     (map str ["Healthcare"; "Financial Services"; "Manufacturing"; "Retail";
               "Technology"; "Education"; "Legal"; "Other"])
  /\ eqb (_map_industry org_type) (str "Other")
     = forallb (fun kv => negb (contains (str kv.1) (lower org_type))) industry_mapping.
Proof.
  unfold _map_industry. split.
  - pose proof (first_industry_in industry_mapping (lower org_type)) as Hin.
    cbn [map In industry_mapping snd] in Hin |- *.
    repeat (destruct Hin as [<-|Hin];
            [repeat first [left; reflexivity | right]|]).
    destruct Hin.
  - apply Bool.eq_true_iff_eq.
    rewrite eqb_eq, (first_industry_other _ _ industries_named), forallb_forall,
      List.Forall_forall.
    split; intros Hall kv Hkv; specialize (Hall kv Hkv);
      destruct (contains _ _); (reflexivity || discriminate).
Qed.

Lemma not_a_tech_field (field : string) (text : pystr) :
  In field ["client_name"; "industry"; "company_size"; "compliance_requirements"] ->
  decided field text = None.
Proof.
  cbn [In]. intros Hf. unfold decided.
  destruct (MapperSpec.rules_of_other field) as [-> ->]; [|reflexivity].
  cbn [In]. intros Hin.
  repeat (destruct Hf as [<-|Hf];
          [repeat (destruct Hin as [Hin|Hin]; [discriminate|]); destruct Hin|]).
  destruct Hf.
Qed.

Section Tables.
Context `{CaseTables}.

(** X19. When [map_profile_to_form_data] returns for a profile, the result
    holds the four organization fields as computed from the profile (the
    technology fields written afterwards by [update] never replace them),
    and always a platform choice and an MDR solution. *)
Theorem form_prefill_fields (p : profile) (form_data : gmap string (option pystr)) :
  map_profile_to_form_data (Some p) = inr form_data ->
  form_data !! "client_name" = Some (attr_get (organization p) "name" [])
  /\ (exists org_type,
        attr_get (organization p) "organization_type" [] = Some org_type
        /\ form_data !! "industry" = Some (Some (_map_industry org_type)))
  /\ form_data !! "company_size"
     = Some (Some (_estimate_company_size (Z.of_nat (total_configurations p))))
  /\ form_data !! "compliance_requirements"
     = Some (Some (_map_compliance (compliance_frameworks p)))
  /\ (exists v, form_data !! "platform_choice" = Some (Some v))
  /\ (exists v, form_data !! "mdr_solution" = Some (Some v)).
Proof.
  unfold map_profile_to_form_data.
  destruct (attr_get (organization p) "organization_type" []) as [org_type|]; [|discriminate].
  destruct (existsb null_name _); [discriminate|]. intros [= <-].
  assert (Horg : forall field,
            In field ["client_name"; "industry"; "company_size"; "compliance_requirements"] ->
            forall m : gmap string (option pystr),
            ((Some <$> _map_technology_stack (as_categories (technology_stack p))) ∪ m)
              !! field = m !! field).
  { intros field Hf m. apply lookup_union_r. rewrite lookup_fmap.
    rewrite MapperSpec.map_technology_stack_decided, (not_a_tech_field field _ Hf).
    reflexivity. }
  assert (Htech : forall field, fallback field <> None ->
            forall m : gmap string (option pystr),
            exists v,
              ((Some <$> _map_technology_stack (as_categories (technology_stack p))) ∪ m)
                !! field = Some (Some v)).
  { intros field Hf m.
    destruct (decided field (config_text_of (as_categories (technology_stack p))))
      as [v|] eqn:E.
    - exists v. apply lookup_union_Some_l. rewrite lookup_fmap.
      rewrite MapperSpec.map_technology_stack_decided, E. reflexivity.
    - unfold decided in E. destruct (first_match _ _); [discriminate|].
      destruct (fallback field); [discriminate|congruence]. }
  split.
  { rewrite Horg by (cbn; tauto). now rewrite lookup_insert_eq. }
  split.
  { exists org_type. split; [reflexivity|]. rewrite Horg by (cbn; tauto).
    rewrite lookup_insert_ne by discriminate. now rewrite lookup_insert_eq. }
  split.
  { rewrite Horg by (cbn; tauto).
    rewrite !lookup_insert_ne by discriminate. now rewrite lookup_insert_eq. }
  split.
  { rewrite Horg by (cbn; tauto).
    rewrite !lookup_insert_ne by discriminate. now rewrite lookup_insert_eq. }
  split; apply Htech; discriminate.
Qed.

End Tables.

Lemma form_prefill_fields_witness :
  exists form_data,
    @map_profile_to_form_data basic_latin (Some clinic_profile) = inr form_data
    /\ form_data !! "client_name" = Some (Some (str "Acme")).
Proof.
  destruct (@map_profile_to_form_data basic_latin (Some clinic_profile))
    as [e|form_data] eqn:E.
  - vm_compute in E. discriminate.
  - exists form_data. split; [reflexivity|].
    destruct (@form_prefill_fields basic_latin clinic_profile form_data E) as (-> & _).
    reflexivity.
Defined.

End FormExtras.
